(** * The dynamic scaler of ai-n8domata: a shallow embedding

    The development follows the four Python modules of [dynamic-scaler/]:
    [config.py], [redis_client.py], [docker_manager.py] and [scaler.py].

    - Python integers are [Z]; clock readings ([time.time()]) are taken in
      whole units and are [Z] as well.
    - The three mutable places of the service ([running],
      [last_scale_time], the loop-local [consecutive_errors]) and the two
      optional client handles live in one record that is threaded through
      every call.
    - Everything outside the process (Redis, the Docker daemon, the
      [docker compose] subprocess, the clock, signals) is a [World]: the
      replies the process gets during one loop iteration.
    - What the process does to the outside (pings, [LLEN]s, subprocess
      runs, sleeps, log lines) is recorded as a list of events.
    - Exceptions are values: a computation ends in [Ret v] or [Raise e].
    - Names, keys and messages, which the code only joins and compares,
      are [string]s. Text that the code strips is a list of Unicode code
      points, since [str.strip()] goes by code point. *)

From Stdlib Require Import ZArith String Ascii List DecimalString Lia.
From Stdlib Require Import DecimalPos DecimalZ.
From stdpp Require Import base option list strings gmap.

Open Scope Z_scope.

(** ** Python helpers *)

(** [str(n)] for an [int], as used by the f-strings of the source. *)
Definition str (n : Z) : string := NilZero.string_of_int (Z.to_int n).

(** A Python [str] as the list of its Unicode code points. *)
Definition text : Type := list N.

(** [c.isspace()], the white space that [str.strip()] removes: the
    characters of bidirectional type WS, B or S and of category Zs, which
    are U+0009 to U+000D, U+001C to U+0020, U+0085, U+00A0, U+1680, U+2000
    to U+200A, U+2028, U+2029, U+202F, U+205F and U+3000. *)
Definition isspace (c : N) : bool :=
  (((9 <=? c) && (c <=? 13)) || ((28 <=? c) && (c <=? 32))
   || (c =? 133) || (c =? 160) || (c =? 5760)
   || ((8192 <=? c) && (c <=? 8202))
   || (c =? 8232) || (c =? 8233) || (c =? 8239) || (c =? 8287)
   || (c =? 12288))%N.

(** [s.lstrip()] *)
Fixpoint lstrip (s : text) : text :=
  match s with
  | c :: s' => if isspace c then lstrip s' else s
  | [] => []
  end.

(** [s.strip()]: white space removed on the left, then on the right. *)
Definition strip (s : text) : text := rev (lstrip (rev (lstrip s))).

(** Truth value of a [str]: non-empty. *)
Definition truthy (s : string) : bool :=
  match s with EmptyString => false | String _ _ => true end.

(** The same for a [str] given by its code points. *)
Definition nonempty (s : text) : bool :=
  match s with [] => false | _ :: _ => true end.

(** ** Exceptions *)

Inductive exn : Set :=
| RedisConnectionError      (* redis.ConnectionError *)
| RedisAuthenticationError  (* redis.AuthenticationError, a ConnectionError *)
| RedisTimeoutError         (* redis.TimeoutError, not a ConnectionError *)
| RedisResponseError        (* redis.ResponseError *)
| DockerException           (* docker.errors.DockerException *)
| CalledProcessError        (* subprocess.CalledProcessError *)
| TimeoutExpired            (* subprocess.TimeoutExpired *)
| FileNotFoundError
| OtherException            (* any other subclass of Exception *)
| KeyboardInterrupt.        (* a BaseException that is not an Exception *)

(** [isinstance(e, redis.ConnectionError)] *)
Definition is_ConnectionError (e : exn) : bool :=
  match e with
  | RedisConnectionError | RedisAuthenticationError => true
  | _ => false
  end.

(** [isinstance(e, redis.ResponseError)] *)
Definition is_ResponseError (e : exn) : bool :=
  match e with RedisResponseError => true | _ => false end.

(** [isinstance(e, Exception)] *)
Definition is_Exception (e : exn) : bool :=
  match e with KeyboardInterrupt => false | _ => true end.

Inductive result (A : Type) : Type :=
| Ret (a : A)
| Raise (e : exn).
Arguments Ret {A} a.
Arguments Raise {A} e.

(** ** config.py *)

Module Config.

Record QueueConfig := {
  name_prefix : string;
  name : string
}.

(** [f"{self.name_prefix}:{self.name}:{state}"] *)
Definition get_queue_key (q : QueueConfig) (state : string) : string :=
  name_prefix q +:+ ":" +:+ name q +:+ ":" +:+ state.

Record ScalingConfig := {
  min_replicas : Z;
  max_replicas : Z;
  scale_up_threshold : Z;
  scale_down_threshold : Z
}.

(** The four pydantic validators of [ScalingConfig]. *)
Definition scaling_valid (c : ScalingConfig) : bool :=
  (1 <=? min_replicas c) && (min_replicas c <=? max_replicas c)
  && (0 <=? scale_up_threshold c) && (0 <=? scale_down_threshold c).

Record DockerConfig := {
  compose_file : string;
  project_name : string;
  service_name : string
}.

Record TimingConfig := {
  polling_interval : Z;
  cooldown_period : Z
}.

Definition timing_valid (c : TimingConfig) : bool :=
  (1 <=? polling_interval c) && (0 <=? cooldown_period c).

Record t := {
  queue : QueueConfig;
  scaling : ScalingConfig;
  docker : DockerConfig;
  timing : TimingConfig
}.

End Config.

(** ** The outside world *)

(** A value stored under a Redis key. *)
Inductive redis_value :=
| RList (items : list string)
| RString (v : string)
| RHash (fields : list (string * string)).

(** The Redis command [LLEN key] on a keyspace: the length of the list
    stored at [key]; a key that does not exist is read as an empty list
    and gives 0; a key holding a value that is not a list gives a
    WRONGTYPE error, which redis-py raises as [redis.ResponseError]. *)
Definition redis_llen (db : gmap string redis_value) (key : string)
  : result (option Z) :=
  match db !! key with
  | None => Ret (Some 0)
  | Some (RList items) => Ret (Some (Z.of_nat (length items)))
  | Some _ => Raise RedisResponseError
  end.

(** [subprocess.CompletedProcess] with [capture_output=True, text=True]. *)
Record CompletedProcess := {
  stdout : text;
  stderr : text
}.

(** The replies the process receives during one iteration of the loop. *)
Record World := {
  time_now : Z;                                (* time.time() *)
  ping_reply : option exn;                     (* ping() in is_connected *)
  connect_reply : option exn;                  (* ping() in connect *)
  llen_reply : string -> result (option Z);    (* llen(key) *)
  containers_reply : result (list string);     (* statuses from containers.list *)
  run_reply : result CompletedProcess;         (* subprocess.run(..., check=True) *)
  signal_received : bool                       (* SIGTERM or SIGINT delivered *)
}.

Inductive level := DEBUG | INFO | WARNING | ERROR.

(** What the process does to the outside. Log lines keep their level and
    event name; the key-value context of structlog is left out. *)
Inductive event :=
| EvSleep (seconds : Z)
| EvPing
| EvConnect
| EvClose
| EvLlen (key : string)
| EvContainersList
| EvSubprocessRun (command : list string)
| EvLog (lvl : level) (msg : string).

(** ** Mutable state and the effect monad *)

(** The mutable places of the service: the two instance fields of
    [DynamicScaler], the local counter of [_scaling_loop], and whether each
    client object holds a handle ([self._client] is not [None]). *)
Record State := {
  running : bool;
  last_scale_time : Z;
  consecutive_errors : Z;
  redis_client : bool;
  docker_client : bool
}.

(** A computation reads and writes the state, emits events, and ends with
    a value or a raised exception. State changes and events made before a
    raise stay, as in Python. *)
Definition M (A : Type) : Type := State -> result A * State * list event.

#[global] Instance M_ret : MRet M := fun A a s => (Ret a, s, []).

#[global] Instance M_bind : MBind M := fun A B k m s =>
  match m s with
  | (Ret a, s1, t1) =>
      match k a s1 with
      | (r, s2, t2) => (r, s2, t1 ++ t2)
      end
  | (Raise e, s1, t1) => (Raise e, s1, t1)
  end.

Definition raise {A : Type} (e : exn) : M A := fun s => (Raise e, s, []).

(** [try: m] with the handlers applied by the caller to the result. *)
Definition try {A : Type} (m : M A) : M (result A) := fun s =>
  match m s with
  | (r, s1, t1) => (Ret r, s1, t1)
  end.

Definition emit (ev : event) : M unit := fun s => (Ret tt, s, [ev]).
Definition log (lvl : level) (msg : string) : M unit := emit (EvLog lvl msg).
Definition sleep (seconds : Z) : M unit := emit (EvSleep seconds).

Definition get : M State := fun s => (Ret s, s, []).
Definition modify (f : State -> State) : M unit := fun s => (Ret tt, f s, []).

Definition set_running (b : bool) : M unit :=
  modify (fun s => {| running := b;
                      last_scale_time := last_scale_time s;
                      consecutive_errors := consecutive_errors s;
                      redis_client := redis_client s;
                      docker_client := docker_client s |}).

Definition set_last_scale_time (t : Z) : M unit :=
  modify (fun s => {| running := running s;
                      last_scale_time := t;
                      consecutive_errors := consecutive_errors s;
                      redis_client := redis_client s;
                      docker_client := docker_client s |}).

Definition set_consecutive_errors (n : Z) : M unit :=
  modify (fun s => {| running := running s;
                      last_scale_time := last_scale_time s;
                      consecutive_errors := n;
                      redis_client := redis_client s;
                      docker_client := docker_client s |}).

Definition set_redis_client (b : bool) : M unit :=
  modify (fun s => {| running := running s;
                      last_scale_time := last_scale_time s;
                      consecutive_errors := consecutive_errors s;
                      redis_client := b;
                      docker_client := docker_client s |}).

(** Projections of a finished computation. *)
Definition value_of {A : Type} (x : result A * State * list event) : result A :=
  fst (fst x).
Definition state_of {A : Type} (x : result A * State * list event) : State :=
  snd (fst x).
Definition trace_of {A : Type} (x : result A * State * list event) : list event :=
  snd x.

(** ** redis_client.py *)

Module RedisClient.
Import Config.

Definition connect (w : World) : M bool :=
  set_redis_client true;;
  emit EvConnect;;
  match connect_reply w with
  | None => log INFO "Connected to Redis";; mret true
  | Some e =>
      if is_ConnectionError e then
        log ERROR "Failed to connect to Redis";; mret false
      else if is_Exception e then
        log ERROR "Unexpected error connecting to Redis";; mret false
      else raise e
  end.

(** [close_reply] is what [self._client.close()] does: it returns or
    raises. *)
Definition disconnect (close_reply : option exn) : M unit :=
  s ← get;
  if redis_client s then
    emit EvClose;;
    r ← try (match close_reply with
             | None => log INFO "Redis connection closed"
             | Some e => raise e
             end);
    set_redis_client false;;
    match r with
    | Ret _ => mret tt
    | Raise e =>
        if is_Exception e then log WARNING "Error closing Redis connection"
        else raise e
    end
  else mret tt.

Definition is_connected (w : World) : M bool :=
  s ← get;
  if negb (redis_client s) then mret false
  else
    emit EvPing;;
    match ping_reply w with
    | None => mret true
    | Some e => if is_ConnectionError e then mret false else raise e
    end.

(** The three candidate keys, in the order of the list literal. *)
Definition key_patterns (queue_config : QueueConfig) : list string :=
  [ get_queue_key queue_config "wait";
    get_queue_key queue_config "waiting";
    name_prefix queue_config +:+ ":" +:+ name queue_config ].

(** The [for key_pattern in key_patterns] loop; [Some length] stands for
    the [return length] inside it, [None] for running off its end. *)
Fixpoint probe (w : World) (keys : list string) : M (option Z) :=
  match keys with
  | [] => mret None
  | key_pattern :: rest =>
      emit (EvLlen key_pattern);;
      match llen_reply w key_pattern with
      | Ret (Some length) =>
          if 0 <=? length then
            log DEBUG "Queue length retrieved";; mret (Some length)
          else probe w rest
      | Ret None => probe w rest
      | Raise e =>
          if is_ResponseError e then
            log DEBUG "Key not found or not a list";; probe w rest
          else if is_Exception e then
            log WARNING "Error checking queue key";; probe w rest
          else raise e
      end
  end.

Definition get_queue_length (w : World) (queue_config : QueueConfig) : M Z :=
  s ← get;
  if negb (redis_client s) then
    log ERROR "Redis client not connected";; mret 0
  else
    r ← probe w (key_patterns queue_config);
    match r with
    | Some length => mret length
    | None =>
        log WARNING "No valid queue keys found, assuming length 0";; mret 0
    end.

End RedisClient.

(** ** docker_manager.py *)

Module DockerManager.
Import Config.

Definition get_current_replicas (w : World) : M Z :=
  s ← get;
  if negb (docker_client s) then
    log ERROR "Docker client not connected";; mret 0
  else
    emit EvContainersList;;
    match containers_reply w with
    | Ret containers =>
        let running_count :=
          Z.of_nat (length (filter (fun status => status = "running") containers)) in
        log DEBUG "Current replicas counted";; mret running_count
    | Raise e =>
        if is_Exception e then
          log ERROR "Error getting current replicas";; mret 0
        else raise e
    end.

(** The argument vector handed to [subprocess.run]. *)
Definition command (config : DockerConfig) (target_replicas : Z) : list string :=
  [ "docker"; "compose"; "-f"; compose_file config;
    "--project-name"; project_name config;
    "--project-directory"; "/app";
    "up"; "-d"; "--no-deps"; "--scale";
    service_name config +:+ "=" +:+ str target_replicas;
    service_name config ].

Definition scale_service (config : DockerConfig) (w : World) (target_replicas : Z)
  : M bool :=
  if target_replicas <? 0 then
    log ERROR "Invalid target replicas";; mret false
  else
    log INFO "Scaling service";;
    emit (EvSubprocessRun (command config target_replicas));;
    match run_reply w with
    | Ret result =>
        (if nonempty (strip (stdout result))
         then log INFO "Scale command output" else mret tt);;
        (if nonempty (strip (stderr result))
         then log WARNING "Scale command warnings" else mret tt);;
        mret true
    | Raise CalledProcessError => log ERROR "Scale command failed";; mret false
    | Raise TimeoutExpired => log ERROR "Scale command timed out";; mret false
    | Raise FileNotFoundError =>
        log ERROR "docker compose command not found";; mret false
    | Raise e =>
        if is_Exception e then
          log ERROR "Unexpected error during scaling";; mret false
        else raise e
    end.

End DockerManager.

(** ** scaler.py *)

Module DynamicScaler.
Import Config.

(** [max_consecutive_errors = 5] *)
Definition max_consecutive_errors : Z := 5.

Definition _make_scaling_decision (config : Config.t)
    (queue_length current_replicas : Z) : option (Z * string) :=
  if (queue_length >? scale_up_threshold (scaling config))
     && (current_replicas <? max_replicas (scaling config))
  then
    let target_replicas :=
      Z.min (current_replicas + 1) (max_replicas (scaling config)) in
    let reason :=
      "Queue length " +:+ str queue_length +:+ " > threshold "
      +:+ str (scale_up_threshold (scaling config)) in
    Some (target_replicas, reason)
  else if (queue_length <=? scale_down_threshold (scaling config))
          && (current_replicas >? min_replicas (scaling config))
  then
    let target_replicas :=
      Z.max (current_replicas - 1) (min_replicas (scaling config)) in
    let reason :=
      "Queue length " +:+ str queue_length +:+ " <= threshold "
      +:+ str (scale_down_threshold (scaling config)) in
    Some (target_replicas, reason)
  else None.

Definition _execute_scaling (config : Config.t) (w : World)
    (target_replicas : Z) (reason : string) (current_time : Z) : M bool :=
  log INFO "Scaling decision made";;
  success ← DockerManager.scale_service (docker config) w target_replicas;
  (if success : bool then log INFO "Scaling completed successfully"
   else log ERROR "Scaling failed");;
  mret success.

Definition _handle_consecutive_errors (consecutive_errors max_errors : Z) : M unit :=
  if consecutive_errors >=? max_errors then
    log ERROR "Max consecutive errors reached, shutting down";;
    set_running false
  else
    let backoff_time := Z.min (consecutive_errors * 2) 60 in
    log WARNING "Backing off due to errors";;
    sleep backoff_time.

Definition _signal_handler : M unit :=
  log INFO "Received shutdown signal";;
  set_running false.

Definition _shutdown (close_reply : option exn) : M unit :=
  log INFO "Shutting down Dynamic Scaler";;
  set_running false;;
  RedisClient.disconnect close_reply;;
  log INFO "Dynamic Scaler stopped".

(** The body of the [try] block of one iteration. Each [continue] of the
    source ends the body, so it is the end of a branch here. *)
Definition loop_body (config : Config.t) (w : World) : M unit :=
  let current_time := time_now w in
  s ← get;
  let time_since_last_scale := current_time - last_scale_time s in
  if time_since_last_scale <? cooldown_period (timing config) then
    log DEBUG "In cooldown period";;
    sleep (polling_interval (timing config))
  else
    connected ← RedisClient.is_connected w;
    reconnected ←
      (if connected : bool then mret true
       else
         log WARNING "Redis connection lost, attempting to reconnect";;
         RedisClient.connect w);
    if negb reconnected then
      s ← get;
      set_consecutive_errors (consecutive_errors s + 1);;
      _handle_consecutive_errors (consecutive_errors s + 1) max_consecutive_errors
    else
      queue_length ← RedisClient.get_queue_length w (queue config);
      current_replicas ← DockerManager.get_current_replicas w;
      log INFO "Current metrics";;
      match _make_scaling_decision config queue_length current_replicas with
      | Some (target_replicas, reason) =>
          success ← _execute_scaling config w target_replicas reason current_time;
          if success : bool then set_last_scale_time current_time else mret tt
      | None => log DEBUG "No scaling action needed"
      end;;
      set_consecutive_errors 0;;
      sleep (polling_interval (timing config)).

(** How one pass through the [while] body ends. *)
Inductive flow := Next | Break.

(** One iteration: the [try] block with its two [except] clauses. *)
Definition iteration (config : Config.t) (w : World) : M flow :=
  r ← try (loop_body config w);
  match r with
  | Ret _ => mret Next
  | Raise KeyboardInterrupt =>
      log INFO "Received keyboard interrupt, shutting down";; mret Break
  | Raise _ =>
      s ← get;
      set_consecutive_errors (consecutive_errors s + 1);;
      log ERROR "Error in scaling loop";;
      _handle_consecutive_errors (consecutive_errors s + 1) max_consecutive_errors;;
      mret Next
  end.

(** One pass through the [while] body, with a termination signal that
    arrives during it: the handler only writes [running], which is read
    again at the next loop test. *)
Definition cycle (config : Config.t) (w : World) : M flow :=
  fl ← iteration config w;
  (if signal_received w then _signal_handler else mret tt);;
  mret fl.

(** How a run of the loop over finitely many worlds ends: the loop was
    left and [_shutdown] ran, or the worlds ran out while [running] still
    held, or an exception left [_scaling_loop]. *)
Inductive loop_end :=
| Stopped
| StillRunning
| Crashed (e : exn).

Definition finish (close_reply : option exn) (s : State)
  : loop_end * State * list event :=
  match _shutdown close_reply s with
  | (Ret _, s1, t1) => (Stopped, s1, t1)
  | (Raise e, s1, t1) => (Crashed e, s1, t1)
  end.

(** [while self.running: ...] followed by [self._shutdown()]; one world
    is consumed per iteration. *)
Fixpoint while_running (config : Config.t) (ws : list World)
    (close_reply : option exn) (s : State) : loop_end * State * list event :=
  if running s then
    match ws with
    | [] => (StillRunning, s, [])
    | w :: ws' =>
        match cycle config w s with
        | (Ret Next, s1, t1) =>
            match while_running config ws' close_reply s1 with
            | (o, s2, t2) => (o, s2, t1 ++ t2)
            end
        | (Ret Break, s1, t1) =>
            match finish close_reply s1 with
            | (o, s2, t2) => (o, s2, t1 ++ t2)
            end
        | (Raise e, s1, t1) => (Crashed e, s1, t1)
        end
    end
  else finish close_reply s.

Definition _scaling_loop (config : Config.t) (ws : list World)
    (close_reply : option exn) (s : State) : loop_end * State * list event :=
  match set_consecutive_errors 0 s with
  | (_, s0, _) => while_running config ws close_reply s0
  end.

End DynamicScaler.

(** ** Vocabulary of the properties *)

Import Config.

(** The length carried by a reply to [llen] that ends the probe: an
    integer that is not negative. *)
Definition usable_length (r : result (option Z)) : option Z :=
  match r with
  | Ret (Some n) => if 0 <=? n then Some n else None
  | _ => None
  end.

(** The three log lines by which [_scaling_loop] and [_execute_scaling]
    report how the decision step of an iteration went. *)
Definition scaling_completed : event := EvLog INFO "Scaling completed successfully".
Definition scaling_failed : event := EvLog ERROR "Scaling failed".
Definition no_action : event := EvLog DEBUG "No scaling action needed".

#[global] Instance level_eq_dec : EqDecision level.
Proof. solve_decision. Defined.

#[global] Instance event_eq_dec : EqDecision event.
Proof. solve_decision. Defined.

(** Those of the three lines that occur in a trace, in order. *)
Definition verdicts (t : list event) : list event :=
  filter (fun ev => ev ∈ [scaling_completed; scaling_failed; no_action]) t.

(** The durations of the [time.sleep] calls of a trace, in order. *)
Definition sleeps (t : list event) : list Z :=
  omap (fun ev => match ev with EvSleep n => Some n | _ => None end) t.

(** A trace with none of the three lines and no sleep: what the calls
    into the two clients produce. *)
Definition quiet (t : list event) : Prop := verdicts t = [] ∧ sleeps t = [].

(** Two states that agree on the three places the loop owns. *)
Definition frame (s s' : State) : Prop :=
  running s' = running s
  ∧ last_scale_time s' = last_scale_time s
  ∧ consecutive_errors s' = consecutive_errors s.

(** A computation that keeps the loop's places and has a quiet trace. *)
Definition calm {A : Type} (m : M A) : Prop :=
  ∀ s, frame s (state_of (m s)) ∧ quiet (trace_of (m s)).

(** The ways one iteration of the loop can go, read off the branches of
    [_scaling_loop]: what it does to the loop's three places, which of the
    three lines it logs and how long it sleeps. *)
Inductive iteration_kind (config : Config.t) (w : World) (s : State)
  : DynamicScaler.flow → State → list event → Prop :=
| it_cooldown :
    time_now w - last_scale_time s < cooldown_period (timing config) →
    iteration_kind config w s DynamicScaler.Next s
      [EvLog DEBUG "In cooldown period";
       EvSleep (polling_interval (timing config))]
| it_backoff s' t :
    cooldown_period (timing config) ≤ time_now w - last_scale_time s →
    consecutive_errors s + 1 < 5 →
    consecutive_errors s' = consecutive_errors s + 1 →
    last_scale_time s' = last_scale_time s →
    running s' = running s →
    verdicts t = [] →
    sleeps t = [Z.min ((consecutive_errors s + 1) * 2) 60] →
    iteration_kind config w s DynamicScaler.Next s' t
| it_stop s' t :
    cooldown_period (timing config) ≤ time_now w - last_scale_time s →
    5 ≤ consecutive_errors s + 1 →
    consecutive_errors s' = consecutive_errors s + 1 →
    last_scale_time s' = last_scale_time s →
    running s' = false →
    verdicts t = [] →
    sleeps t = [] →
    iteration_kind config w s DynamicScaler.Next s' t
| it_interrupted s' t :
    cooldown_period (timing config) ≤ time_now w - last_scale_time s →
    frame s s' →
    quiet t →
    iteration_kind config w s DynamicScaler.Break s' t
| it_no_action s' t :
    cooldown_period (timing config) ≤ time_now w - last_scale_time s →
    consecutive_errors s' = 0 →
    last_scale_time s' = last_scale_time s →
    running s' = running s →
    verdicts t = [no_action] →
    sleeps t = [polling_interval (timing config)] →
    iteration_kind config w s DynamicScaler.Next s' t
| it_scaled s' t :
    cooldown_period (timing config) ≤ time_now w - last_scale_time s →
    consecutive_errors s' = 0 →
    last_scale_time s' = time_now w →
    running s' = running s →
    verdicts t = [scaling_completed] →
    sleeps t = [polling_interval (timing config)] →
    iteration_kind config w s DynamicScaler.Next s' t
| it_scale_failed s' t :
    cooldown_period (timing config) ≤ time_now w - last_scale_time s →
    consecutive_errors s' = 0 →
    last_scale_time s' = last_scale_time s →
    running s' = running s →
    verdicts t = [scaling_failed] →
    sleeps t = [polling_interval (timing config)] →
    iteration_kind config w s DynamicScaler.Next s' t.

(** [post x Q]: the finished computation [x] satisfies [Q]. *)
Definition post {A : Type} (x : result A * State * list event)
    (Q : result A → State → list event → Prop) : Prop :=
  Q (value_of x) (state_of x) (trace_of x).

(** ** Concrete inputs *)

Module Sample.
Import Config.

(** The defaults of [config.py], with a project name. *)
Definition config : Config.t := {|
  queue := {| name_prefix := "bull"; name := "jobs" |};
  scaling := {| min_replicas := 1; max_replicas := 5;
                scale_up_threshold := 5; scale_down_threshold := 0 |};
  docker := {| compose_file := "/app/docker-compose.yml";
               project_name := "n8n"; service_name := "n8n-worker" |};
  timing := {| polling_interval := 30; cooldown_period := 120 |} |}.

(** The queue [myapp:jobs]. *)
Definition myapp_jobs : QueueConfig :=
  {| name_prefix := "myapp"; name := "jobs" |}.

(** A keyspace whose only key is [myapp:jobs:waiting], a list of seven
    job ids. *)
Definition only_waiting : gmap string redis_value :=
  {[ "myapp:jobs:waiting" := RList ["1"; "2"; "3"; "4"; "5"; "6"; "7"] ]}.

(** A keyspace with six waiting jobs under the first candidate key. *)
Definition six_waiting : gmap string redis_value :=
  {[ "bull:jobs:wait" := RList ["1"; "2"; "3"; "4"; "5"; "6"] ]}.

(** A world at time [now] in which Redis answers from [db], two worker
    containers run, and every external call succeeds. *)
Definition healthy (now : Z) (db : gmap string redis_value) : World := {|
  time_now := now;
  ping_reply := None;
  connect_reply := None;
  llen_reply := redis_llen db;
  containers_reply := Ret ["running"; "running"];
  run_reply := Ret {| stdout := []; stderr := [] |};
  signal_received := false |}.

(** As [healthy], but [docker compose] exits with a non-zero status. *)
Definition compose_fails (now : Z) (db : gmap string redis_value) : World := {|
  time_now := now;
  ping_reply := None;
  connect_reply := None;
  llen_reply := redis_llen db;
  containers_reply := Ret ["running"; "running"];
  run_reply := Raise CalledProcessError;
  signal_received := false |}.

(** A world in which Redis cannot be reached: the liveness ping and the
    reconnect both raise [redis.ConnectionError]. *)
Definition redis_down (now : Z) : World := {|
  time_now := now;
  ping_reply := Some RedisConnectionError;
  connect_reply := Some RedisConnectionError;
  llen_reply := fun _ => Raise RedisConnectionError;
  containers_reply := Ret ["running"; "running"];
  run_reply := Ret {| stdout := []; stderr := [] |};
  signal_received := false |}.

(** A world in which the liveness ping times out. *)
Definition ping_times_out (now : Z) : World := {|
  time_now := now;
  ping_reply := Some RedisTimeoutError;
  connect_reply := None;
  llen_reply := fun _ => Ret (Some 0);
  containers_reply := Ret ["running"; "running"];
  run_reply := Ret {| stdout := []; stderr := [] |};
  signal_received := false |}.

(** The state in which [start] enters the loop ([consecutive_errors] is
    set by the loop itself), with [n] errors counted so far and the last
    actuation at [last]. *)
Definition started (last n : Z) : State := {|
  running := true;
  last_scale_time := last;
  consecutive_errors := n;
  redis_client := true;
  docker_client := true |}.

End Sample.

(** ** config.py: the validators *)

Module Validators.
Import Config.

(** What a field validator does: it raises [ValueError] with a message or
    returns the value to store. *)
Definition validated (A : Type) : Type := string + A.

(** [RedisConfig.port_must_be_valid] *)
Definition port_must_be_valid (v : Z) : validated Z :=
  if negb ((1 <=? v) && (v <=? 65535)) then inl "Port must be between 1 and 65535"
  else inr v.

(** [ScalingConfig.min_replicas_valid] *)
Definition min_replicas_valid (v : Z) : validated Z :=
  if v <? 1 then inl "Minimum replicas must be at least 1" else inr v.

(** [ScalingConfig.max_replicas_valid]; [values] holds the fields that were
    validated before this one. *)
Definition max_replicas_valid (v : Z) (values : gmap string Z) : validated Z :=
  match values !! "min_replicas" with
  | Some min_replicas =>
      if v <? min_replicas then inl "Maximum replicas must be >= minimum replicas"
      else inr v
  | None => inr v
  end.

(** [ScalingConfig.scale_up_threshold_valid] *)
Definition scale_up_threshold_valid (v : Z) : validated Z :=
  if v <? 0 then inl "Scale up threshold must be >= 0" else inr v.

(** [ScalingConfig.scale_down_threshold_valid] *)
Definition scale_down_threshold_valid (v : Z) : validated Z :=
  if v <? 0 then inl "Scale down threshold must be >= 0" else inr v.

(** [DockerConfig.project_name_required], on the code points of the name *)
Definition project_name_required (v : text) : validated text :=
  if negb (nonempty v) || negb (nonempty (strip v)) then
    inl "Project name is required"
  else inr (strip v).

(** [TimingConfig.polling_interval_valid] *)
Definition polling_interval_valid (v : Z) : validated Z :=
  if v <? 1 then inl "Polling interval must be at least 1 second" else inr v.

(** [TimingConfig.cooldown_period_valid] *)
Definition cooldown_period_valid (v : Z) : validated Z :=
  if v <? 0 then inl "Cooldown period must be >= 0" else inr v.

(** How pydantic runs the validator of one field: a value that passes is
    added to [values], a failure is added to the errors under the name of
    the field and the field stays out of [values]. *)
Definition run_validator (field : string) (r : validated Z)
    (acc : gmap string Z * list (string * string))
  : gmap string Z * list (string * string) :=
  match r with
  | inr v => (<[field := v]> (fst acc), snd acc)
  | inl msg => (fst acc, snd acc ++ [(field, msg)])
  end.

(** [ScalingConfig(min_replicas=..., max_replicas=..., ...)]: the fields
    are validated in the order of their declaration; the model is built
    when no validator failed, otherwise [ValidationError] carries the
    failures. *)
Definition ScalingConfig_init (min_replicas max_replicas scale_up_threshold
                               scale_down_threshold : Z)
  : list (string * string) + ScalingConfig :=
  let acc0 := (∅, []) in
  let acc1 := run_validator "min_replicas" (min_replicas_valid min_replicas) acc0 in
  let acc2 := run_validator "max_replicas"
                (max_replicas_valid max_replicas (fst acc1)) acc1 in
  let acc3 := run_validator "scale_up_threshold"
                (scale_up_threshold_valid scale_up_threshold) acc2 in
  let acc4 := run_validator "scale_down_threshold"
                (scale_down_threshold_valid scale_down_threshold) acc3 in
  match snd acc4,
        fst acc4 !! "min_replicas", fst acc4 !! "max_replicas",
        fst acc4 !! "scale_up_threshold", fst acc4 !! "scale_down_threshold" with
  | [], Some mn, Some mx, Some up, Some down =>
      inr {| Config.min_replicas := mn; Config.max_replicas := mx;
             Config.scale_up_threshold := up; Config.scale_down_threshold := down |}
  | errors, _, _, _, _ => inl errors
  end.

End Validators.

(** ** Start-up: docker_manager.py and scaler.py *)

(** What the process receives from the outside while it starts. *)
Record Boot := {
  path_exists : bool;                 (* os.path.exists(compose_file) *)
  config_run_reply : result Z;        (* returncode of docker compose config *)
  from_env_reply : option exn;        (* docker.from_env() *)
  docker_ping_reply : option exn;     (* ping() in DockerManager.connect *)
  boot_close_reply : option exn       (* close() of the Redis client *)
}.

(** What the process does while it starts: the events of the loop, and
    those that only occur at start-up. *)
Inductive boot_event :=
| InLoop (ev : event)
| EvSignal (signum : string)
| EvDockerFromEnv
| EvDockerPing
| EvPathExists (path : string).

(** Computations of the start-up phase: as [M], over the larger events. *)
Definition B (A : Type) : Type := State -> result A * State * list boot_event.

#[global] Instance B_ret : MRet B := fun A a s => (Ret a, s, []).

#[global] Instance B_bind : MBind B := fun A C k m s =>
  match m s with
  | (Ret a, s1, t1) =>
      match k a s1 with
      | (r, s2, t2) => (r, s2, t1 ++ t2)
      end
  | (Raise e, s1, t1) => (Raise e, s1, t1)
  end.

(** A computation of the loop, run during start-up. *)
Definition lift {A : Type} (m : M A) : B A := fun s =>
  match m s with
  | (r, s1, t1) => (r, s1, InLoop <$> t1)
  end.

Definition braise {A : Type} (e : exn) : B A := fun s => (Raise e, s, []).
Definition bemit (ev : boot_event) : B unit := fun s => (Ret tt, s, [ev]).
Definition blog (lvl : level) (msg : string) : B unit := bemit (InLoop (EvLog lvl msg)).

Definition set_docker_client (b : bool) : B unit := fun s =>
  (Ret tt,
   {| running := running s;
      last_scale_time := last_scale_time s;
      consecutive_errors := consecutive_errors s;
      redis_client := redis_client s;
      docker_client := b |}, []).

(** [isinstance(e, docker.errors.DockerException)] *)
Definition is_DockerException (e : exn) : bool :=
  match e with DockerException => true | _ => false end.

Module DockerSetup.
Import Config.

(** The two [except] clauses of [DockerManager.connect]. *)
Definition connect_failed (e : exn) : B bool :=
  if is_DockerException e then
    blog ERROR "Failed to connect to Docker daemon";; mret false
  else if is_Exception e then
    blog ERROR "Unexpected error connecting to Docker";; mret false
  else braise e.

(** [DockerManager.connect] *)
Definition connect (b : Boot) : B bool :=
  bemit EvDockerFromEnv;;
  match from_env_reply b with
  | Some e => connect_failed e
  | None =>
      set_docker_client true;;
      bemit EvDockerPing;;
      match docker_ping_reply b with
      | Some e => connect_failed e
      | None => blog INFO "Connected to Docker daemon";; mret true
      end
  end.

(** The argument vector of the preflight run. *)
Definition config_command (config : DockerConfig) : list string :=
  [ "docker"; "compose"; "-f"; compose_file config; "config"; "--quiet" ].

(** [DockerManager.validate_setup] *)
Definition validate_setup (config : DockerConfig) (b : Boot) : B bool :=
  if negb (truthy (project_name config)) then
    blog ERROR "Docker project name not configured";; mret false
  else
    bemit (EvPathExists (compose_file config));;
    if negb (path_exists b) then
      blog ERROR "Docker compose file not found";; mret false
    else
      bemit (InLoop (EvSubprocessRun (config_command config)));;
      match config_run_reply b with
      | Ret returncode =>
          if negb (returncode =? 0) then
            blog ERROR "Docker compose configuration invalid";; mret false
          else
            blog INFO "Docker setup validated successfully";; mret true
      | Raise e =>
          if is_Exception e then
            blog ERROR "Error validating Docker setup";; mret false
          else braise e
      end.

End DockerSetup.

Module Startup.
Import Config.

(** The state of a [DynamicScaler] right after [__init__]; the counter of
    the loop does not exist yet and is set when the loop starts. *)
Definition initial : State := {|
  running := false;
  last_scale_time := 0;
  consecutive_errors := 0;
  redis_client := false;
  docker_client := false |}.

(** [DynamicScaler._validate_setup] *)
Definition _validate_setup (config : Config.t) (b : Boot) : B bool :=
  fun s =>
    match DockerSetup.validate_setup (docker config) b s with
    | (Ret true, s1, t1) =>
        (Ret true, s1,
         t1 ++ [InLoop (EvLog INFO "Configuration validation successful")])
    | (Ret false, s1, t1) => (Ret false, s1, t1)
    | (Raise e, s1, t1) =>
        if is_Exception e then
          (Ret false, s1, t1 ++ [InLoop (EvLog ERROR "Error during setup validation")])
        else (Raise e, s1, t1)
    end.

(** [DynamicScaler._connect_services]; [w] gives the reply to the ping of
    [RedisClient.connect]. *)
Definition _connect_services (w : World) (b : Boot) : B bool :=
  redis_ok ← lift (RedisClient.connect w);
  if negb redis_ok then mret false
  else
    docker_ok ← DockerSetup.connect b;
    if negb docker_ok then
      lift (RedisClient.disconnect (boot_close_reply b));;
      mret false
    else mret true.

(** The part of [start] before the loop; [True] when the loop is to be
    entered, [False] for [sys.exit(1)]. *)
Definition prepare (config : Config.t) (w : World) (b : Boot) : B bool :=
  blog INFO "Starting Dynamic Scaler service";;
  bemit (EvSignal "SIGTERM");;
  bemit (EvSignal "SIGINT");;
  valid ← _validate_setup config b;
  if negb valid then
    blog ERROR "Configuration validation failed, exiting";; mret false
  else
    connected ← _connect_services w b;
    if negb connected then
      blog ERROR "Failed to connect to required services, exiting";; mret false
    else
      blog INFO "Dynamic Scaler started successfully";;
      lift (set_running true);;
      mret true.

(** How [start] ends: [sys.exit(code)], the end of the loop, or an
    exception that leaves it. *)
Inductive start_end :=
| Exited (code : Z)
| LoopEnded (o : DynamicScaler.loop_end)
| Raised (e : exn).

(** [DynamicScaler.start]; [ws] are the worlds of the loop and
    [close_reply] the reply to [close()] in [_shutdown]. *)
Definition start (config : Config.t) (w : World) (b : Boot) (ws : list World)
    (close_reply : option exn) (s : State) : start_end * State * list boot_event :=
  match prepare config w b s with
  | (Ret true, s1, t1) =>
      match DynamicScaler._scaling_loop config ws close_reply s1 with
      | (o, s2, t2) => (LoopEnded o, s2, t1 ++ (InLoop <$> t2))
      end
  | (Ret false, s1, t1) => (Exited 1, s1, t1)
  | (Raise e, s1, t1) => (Raised e, s1, t1)
  end.

End Startup.

(** ** Further vocabulary *)

(** The keys of the [LLEN] calls of a trace, in order. *)
Definition llens (t : list event) : list string :=
  omap (fun ev => match ev with EvLlen key => Some key | _ => None end) t.

(** A reply to [LLEN] after which [get_queue_length] asks no further key:
    a length that is not negative, which it returns, or an exception that
    is no [Exception], which leaves it. *)
Definition ends_probe (r : result (option Z)) : bool :=
  match r with
  | Ret (Some length) => 0 <=? length
  | Ret None => false
  | Raise e => negb (is_Exception e)
  end.

(** The candidate keys up to and including the first whose reply ends the
    probe. *)
Fixpoint keys_asked (w : World) (keys : list string) : list string :=
  match keys with
  | [] => []
  | key :: rest =>
      key :: (if ends_probe (llen_reply w key) then [] else keys_asked w rest)
  end.

(** The state in which a pass that got past the connection check takes its
    two readings: the Redis client is in place ([is_connected] found it, or
    [connect] has just assigned it), the rest is as the pass found it. *)
Definition measuring_state (s : State) : State :=
  state_of (set_redis_client true s).

(** The argument vectors of the subprocess runs of a trace, in order. *)
Definition subprocess_runs (t : list event) : list (list string) :=
  omap (fun ev => match ev with EvSubprocessRun c => Some c | _ => None end) t.

(** The calls to Redis and to Docker of a trace, log lines and sleeps left
    out. *)
Definition is_external_call (ev : event) : bool :=
  match ev with
  | EvLog _ _ | EvSleep _ => false
  | _ => true
  end.

Definition external_calls (t : list event) : list event :=
  filter (fun ev => is_external_call ev = true) t.

#[global] Instance boot_event_eq_dec : EqDecision boot_event.
Proof. solve_decision. Defined.

(** The attempts of a start-up trace to reach Redis or the Docker daemon. *)
Definition connection_attempts (t : list boot_event) : list boot_event :=
  filter (fun ev => ev ∈ [InLoop EvConnect; InLoop EvPing; EvDockerFromEnv;
                          EvDockerPing]) t.

(** The preflight passes: a project name, a compose file that exists, and
    [docker compose config] with exit status 0. *)
Definition setup_ok (config : Config.t) (b : Boot) : Prop :=
  project_name (docker config) ≠ "" ∧ path_exists b = true
  ∧ config_run_reply b = Ret 0.

(** Redis and the Docker daemon both answer at start-up. *)
Definition services_ok (w : World) (b : Boot) : Prop :=
  connect_reply w = None ∧ from_env_reply b = None ∧ docker_ping_reply b = None.

(** A start-up in which the compose file is there, [docker compose config]
    passes and the Docker daemon answers. *)
Definition ready : Boot := {|
  path_exists := true;
  config_run_reply := Ret 0;
  from_env_reply := None;
  docker_ping_reply := None;
  boot_close_reply := None |}.

(** A start-up in which the compose file is missing. *)
Definition no_compose_file : Boot := {|
  path_exists := false;
  config_run_reply := Ret 0;
  from_env_reply := None;
  docker_ping_reply := None;
  boot_close_reply := None |}.

(** The replica count after acting on the decision, when the actuation
    succeeds: the target, or the current count when there is no decision. *)
Definition step_replicas (config : Config.t) (queue_length current_replicas : Z) : Z :=
  match DynamicScaler._make_scaling_decision config queue_length current_replicas with
  | Some (target_replicas, _) => target_replicas
  | None => current_replicas
  end.

(** * Properties *)

(** The sample configuration passes the validators of [config.py]. *)
Example sample_config_valid :
  scaling_valid (scaling Sample.config) = true
  ∧ timing_valid (timing Sample.config) = true.
Proof. split; reflexivity. Qed.

(** ** Reasoning about computations *)

(** Turns boolean comparisons in the hypotheses into their propositions. *)
Ltac Zbool :=
  repeat match goal with
         | H : (_ <? _) = true |- _ => apply Z.ltb_lt in H
         | H : (_ <? _) = false |- _ => apply Z.ltb_ge in H
         | H : (_ <=? _) = true |- _ => apply Z.leb_le in H
         | H : (_ <=? _) = false |- _ => apply Z.leb_gt in H
         | H : (_ >? _) = true |- _ => rewrite Z.gtb_ltb in H
         | H : (_ >? _) = false |- _ => rewrite Z.gtb_ltb in H
         | H : (_ >=? _) = true |- _ => rewrite Z.geb_leb in H
         | H : (_ >=? _) = false |- _ => rewrite Z.geb_leb in H
         | H : (_ && _) = true |- _ => apply andb_true_iff in H; destruct H
         | H : (_ && _) = false |- _ => apply andb_false_iff in H
         end.

(** Running a bind: the first computation, then the second on its value. *)
Lemma run_bind {A B : Type} (m : M A) (k : A → M B) (s : State) :
  (m ≫= k) s
  = match m s with
    | (Ret a, s1, t1) =>
        match k a s1 with
        | (r, s2, t2) => (r, s2, t1 ++ t2)
        end
    | (Raise e, s1, t1) => (Raise e, s1, t1)
    end.
Proof. reflexivity. Qed.

Lemma frame_refl (s : State) : frame s s.
Proof. repeat split. Qed.

Lemma frame_trans (s1 s2 s3 : State) : frame s1 s2 → frame s2 s3 → frame s1 s3.
Proof. unfold frame. intros (? & ? & ?) (? & ? & ?). repeat split; congruence. Qed.

Lemma verdicts_app (t1 t2 : list event) :
  verdicts (t1 ++ t2) = verdicts t1 ++ verdicts t2.
Proof. apply filter_app. Qed.

Lemma sleeps_app (t1 t2 : list event) : sleeps (t1 ++ t2) = sleeps t1 ++ sleeps t2.
Proof. apply omap_app. Qed.

Lemma quiet_nil : quiet [].
Proof. split; reflexivity. Qed.

Lemma quiet_app (t1 t2 : list event) : quiet t1 → quiet t2 → quiet (t1 ++ t2).
Proof.
  intros [V1 S1] [V2 S2]. split.
  - rewrite verdicts_app, V1, V2. reflexivity.
  - rewrite sleeps_app, S1, S2. reflexivity.
Qed.

Lemma calm_ret {A : Type} (a : A) : calm (mret a).
Proof. intros s. split; [apply frame_refl | apply quiet_nil]. Qed.

Lemma calm_raise {A : Type} (e : exn) : calm (raise e : M A).
Proof. intros s. split; [apply frame_refl | apply quiet_nil]. Qed.

Lemma calm_get : calm get.
Proof. intros s. split; [apply frame_refl | apply quiet_nil]. Qed.

Lemma calm_emit (ev : event) : quiet [ev] → calm (emit ev).
Proof. intros H s. split; [apply frame_refl | exact H]. Qed.

Lemma calm_log (lvl : level) (msg : string) :
  quiet [EvLog lvl msg] → calm (log lvl msg).
Proof. apply calm_emit. Qed.

Lemma calm_set_redis_client (b : bool) : calm (set_redis_client b).
Proof. intros s. split; [repeat split | apply quiet_nil]. Qed.

Lemma calm_bind {A B : Type} (m : M A) (k : A → M B) :
  calm m → (∀ a, calm (k a)) → calm (m ≫= k).
Proof.
  intros Hm Hk s. rewrite run_bind.
  specialize (Hm s). unfold state_of, trace_of in *.
  destruct (m s) as [[[a | e] s1] t1]; cbn [fst snd] in *; [| exact Hm].
  specialize (Hk a s1). unfold state_of, trace_of in *.
  destruct (k a s1) as [[r s2] t2]; cbn [fst snd] in *.
  destruct Hm, Hk. split; [eapply frame_trans; eauto | apply quiet_app; auto].
Qed.

Lemma calm_try {A : Type} (m : M A) : calm m → calm (try m).
Proof.
  intros Hm s. specialize (Hm s). unfold try, state_of, trace_of in *.
  destruct (m s) as [[r s1] t1]. exact Hm.
Qed.

(** Breaks a computation into its steps and closes the quiet ones. *)
Ltac calm_steps :=
  repeat first
    [ apply calm_ret
    | apply calm_raise
    | apply calm_get
    | apply calm_set_redis_client
    | apply calm_try
    | apply calm_log; split; reflexivity
    | apply calm_emit; split; reflexivity
    | apply calm_bind; [| intros ?]
    | match goal with
      | |- calm (if ?b then _ else _) => destruct b
      | |- calm (match ?x with _ => _ end) => destruct x
      end ].

(** ** The decision function *)

(** The two reasons never coincide: after the common prefix one goes on
    with [>] and the other with [<=]. *)
Lemma reasons_differ (q a b : Z) :
  "Queue length " +:+ str q +:+ " > threshold " +:+ str a
  ≠ "Queue length " +:+ str q +:+ " <= threshold " +:+ str b.
Proof.
  intros E.
  apply (inj (String.app "Queue length ")) in E.
  apply (inj (String.app (str q))) in E.
  discriminate E.
Qed.

(** C3. For every queue length (non-negative or not), every replica count
    and every scaling configuration, [_make_scaling_decision] returns
    [(min(current_replicas + 1, max_replicas), "... > threshold ...")]
    exactly when [queue_length > scale_up_threshold] and
    [current_replicas < max_replicas]; this test comes first. Otherwise it
    returns [(max(current_replicas - 1, min_replicas), "... <= threshold ...")]
    exactly when [queue_length <= scale_down_threshold] and
    [current_replicas > min_replicas]. Otherwise it returns [None]. *)
Theorem make_scaling_decision_cases
    (config : Config.t) (queue_length current_replicas : Z) :
  let sc := scaling config in
  let up :=
    queue_length > scale_up_threshold sc ∧ current_replicas < max_replicas sc in
  let down :=
    queue_length ≤ scale_down_threshold sc ∧ current_replicas > min_replicas sc in
  let up_decision :=
    (Z.min (current_replicas + 1) (max_replicas sc),
     "Queue length " +:+ str queue_length +:+ " > threshold "
     +:+ str (scale_up_threshold sc)) in
  let down_decision :=
    (Z.max (current_replicas - 1) (min_replicas sc),
     "Queue length " +:+ str queue_length +:+ " <= threshold "
     +:+ str (scale_down_threshold sc)) in
  let decision :=
    DynamicScaler._make_scaling_decision config queue_length current_replicas in
  (decision = Some up_decision ↔ up)
  ∧ (decision = Some down_decision ↔ ¬ up ∧ down)
  ∧ (decision = None ↔ ¬ up ∧ ¬ down).
Proof.
  cbv zeta. unfold DynamicScaler._make_scaling_decision.
  pose proof (reasons_differ queue_length
                (scale_up_threshold (scaling config))
                (scale_down_threshold (scaling config))) as Hne.
  destruct ((queue_length >? scale_up_threshold (scaling config))
            && (current_replicas <? max_replicas (scaling config))) eqn:Hup;
    [| destruct ((queue_length <=? scale_down_threshold (scaling config))
                 && (current_replicas >? min_replicas (scaling config))) eqn:Hdown];
    Zbool.
  all: repeat split; intros; try discriminate; try tauto; try lia.
  all: try (exfalso; apply Hne; congruence).
  all: try (destruct Hup; lia).
  all: try (destruct Hdown; lia).
  all: try (destruct Hup, Hdown; lia).
Qed.

(** C8. Every decision is either a scale-up decision (taken in the first
    branch, one replica above the current count) whose target is at most
    [max_replicas], or a scale-down decision (second branch, one replica
    below) whose target is at least [min_replicas]; this holds for every
    queue length, replica count and configuration. *)
Theorem decision_target_within_bounds
    (config : Config.t) (queue_length current_replicas target : Z) (reason : string) :
  DynamicScaler._make_scaling_decision config queue_length current_replicas
    = Some (target, reason) →
  let sc := scaling config in
  (queue_length > scale_up_threshold sc
   ∧ reason = "Queue length " +:+ str queue_length +:+ " > threshold "
              +:+ str (scale_up_threshold sc)
   ∧ target = current_replicas + 1
   ∧ target ≤ max_replicas sc)
  ∨ (queue_length ≤ scale_down_threshold sc
     ∧ reason = "Queue length " +:+ str queue_length +:+ " <= threshold "
                +:+ str (scale_down_threshold sc)
     ∧ target = current_replicas - 1
     ∧ min_replicas sc ≤ target).
Proof.
  unfold DynamicScaler._make_scaling_decision. cbv zeta.
  destruct ((queue_length >? scale_up_threshold (scaling config))
            && (current_replicas <? max_replicas (scaling config))) eqn:Hup;
    [| destruct ((queue_length <=? scale_down_threshold (scaling config))
                 && (current_replicas >? min_replicas (scaling config))) eqn:Hdown];
    Zbool; intros E; inversion E; subst; clear E.
  - left. repeat split; lia.
  - right. repeat split; lia.
Qed.

Lemma decision_target_within_bounds_witness :
  (6 > 5 ∧ "Queue length 6 > threshold 5" = "Queue length 6 > threshold 5"
   ∧ 3 = 2 + 1 ∧ 3 ≤ 5)
  ∨ (6 ≤ 0 ∧ "Queue length 6 > threshold 5" = "Queue length 6 <= threshold 0"
     ∧ 3 = 2 - 1 ∧ 1 ≤ 3).
Proof.
  apply (decision_target_within_bounds Sample.config 6 2 3
           "Queue length 6 > threshold 5").
  reflexivity.
Defined.

(** ** The actuator *)

(** C10. For every negative target, [scale_service] returns [False], logs
    the invalid target and does nothing else: no subprocess is run and the
    state is untouched. *)
Theorem scale_service_negative_target
    (config : DockerConfig) (w : World) (target_replicas : Z) (s : State) :
  target_replicas < 0 →
  DockerManager.scale_service config w target_replicas s
    = (Ret false, s, [EvLog ERROR "Invalid target replicas"])
  ∧ ∀ command,
      EvSubprocessRun command
        ∉ trace_of (DockerManager.scale_service config w target_replicas s).
Proof.
  intros Hneg. unfold DockerManager.scale_service.
  apply Z.ltb_lt in Hneg. rewrite Hneg.
  split; [reflexivity |].
  intros command Hin. cbn in Hin.
  apply list_elem_of_singleton in Hin. discriminate Hin.
Qed.

Lemma scale_service_negative_target_witness :
  DockerManager.scale_service (docker Sample.config)
      (Sample.healthy 1000 Sample.six_waiting) (-1) (Sample.started 0 0)
    = (Ret false, Sample.started 0 0, [EvLog ERROR "Invalid target replicas"])
  ∧ ∀ command,
      EvSubprocessRun command
        ∉ trace_of (DockerManager.scale_service (docker Sample.config)
                      (Sample.healthy 1000 Sample.six_waiting) (-1)
                      (Sample.started 0 0)).
Proof.
  apply (scale_service_negative_target (docker Sample.config)
           (Sample.healthy 1000 Sample.six_waiting) (-1) (Sample.started 0 0)).
  lia.
Defined.

(** ** The Redis client *)

(** C9, as the code has it. [is_connected] leaves the state alone. It
    returns [False] when there is no client or when the ping raises
    [redis.ConnectionError] (or a subclass), and [True] when the ping
    succeeds. Any other exception of the ping is not caught and leaves
    [is_connected]. *)
Theorem is_connected_outcome (w : World) (s : State) :
  state_of (RedisClient.is_connected w s) = s
  ∧ (∀ b : bool,
       value_of (RedisClient.is_connected w s) = Ret b ↔
       (redis_client s = false ∧ b = false)
       ∨ (redis_client s = true ∧ ping_reply w = None ∧ b = true)
       ∨ (redis_client s = true ∧ b = false
          ∧ ∃ e, ping_reply w = Some e ∧ is_ConnectionError e = true))
  ∧ (∀ e : exn,
       value_of (RedisClient.is_connected w s) = Raise e ↔
       redis_client s = true ∧ ping_reply w = Some e
       ∧ is_ConnectionError e = false).
Proof.
  unfold RedisClient.is_connected, value_of, state_of.
  cbv [mbind M_bind get mret M_ret emit raise].
  destruct (redis_client s) eqn:Hc; cbn [negb fst snd].
  - destruct (ping_reply w) as [e |] eqn:Hp;
      [destruct (is_ConnectionError e) eqn:He |]; cbn [fst snd].
    + split; [reflexivity |]. split.
      * intros b. split.
        -- intros [= <-]. right. right. eauto.
        -- intros [[? _] | [(_ & ? & _) | (_ & -> & _)]];
             [discriminate | discriminate | reflexivity].
      * intros e'. split; [discriminate |].
        intros (_ & [= <-] & He'). congruence.
    + split; [reflexivity |]. split.
      * intros b. split; [discriminate |].
        intros [[? _] | [(_ & ? & _) | (_ & _ & e' & [= <-] & He')]];
          [discriminate | discriminate | congruence].
      * intros e'. split.
        -- intros [= <-]. auto.
        -- intros (_ & [= <-] & _). reflexivity.
    + split; [reflexivity |]. split.
      * intros b. split.
        -- intros [= <-]. right. left. auto.
        -- intros [[? _] | [(_ & _ & ->) | (_ & _ & e' & ? & _)]];
             [discriminate | reflexivity | discriminate].
      * intros e'. split; [discriminate |].
        intros (_ & ? & _). discriminate.
  - split; [reflexivity |]. split.
    + intros b. split.
      * intros [= <-]. left. auto.
      * intros [[_ ->] | [(? & _) | (? & _)]];
          [reflexivity | discriminate | discriminate].
    + intros e'. split; [discriminate |].
      intros (? & _). discriminate.
Qed.

(** C9, counterexample: with a client in place and a ping that raises
    [redis.TimeoutError], [is_connected] returns no boolean; the exception
    leaves it. *)
Lemma is_connected_raises_on_timeout :
  RedisClient.is_connected (Sample.ping_times_out 1000) (Sample.started 0 0)
    = (Raise RedisTimeoutError, Sample.started 0 0, [EvPing])
  ∧ ¬ ∃ b : bool,
        value_of (RedisClient.is_connected (Sample.ping_times_out 1000)
                    (Sample.started 0 0)) = Ret b.
Proof.
  split; [reflexivity |].
  intros [b Hb]. discriminate Hb.
Qed.

(** The probe returns the first usable length in the order of the keys,
    and nothing when no key has one; it leaves the state alone. *)
Lemma probe_first_usable (w : World) (keys : list string) (s : State) :
  Forall (fun k => llen_reply w k ≠ Raise KeyboardInterrupt) keys →
  ∃ t, RedisClient.probe w keys s
       = (Ret (head (omap (fun k => usable_length (llen_reply w k)) keys)), s, t).
Proof.
  induction 1 as [| k keys Hk _ IH].
  - eexists. reflexivity.
  - destruct IH as [t IH].
    cbn [RedisClient.probe omap list_omap usable_length].
    cbv [mbind M_bind emit log mret M_ret raise] in *.
    destruct (llen_reply w k) as [[n |] | e]; cbn [usable_length].
    + destruct (0 <=? n); cbn [head].
      * eexists. reflexivity.
      * rewrite IH. eexists. reflexivity.
    + rewrite IH. eexists. reflexivity.
    + destruct e; cbn [is_ResponseError is_Exception];
        try (rewrite IH; eexists; reflexivity).
      congruence.
Qed.

(** With a client in place and no interrupt, [get_queue_length] returns the
    first usable length among [prefix:name:wait], [prefix:name:waiting] and
    [prefix:name], in this order, and 0 when there is none. *)
Lemma get_queue_length_first_usable (w : World) (q : QueueConfig) (s : State) :
  redis_client s = true →
  Forall (fun k => llen_reply w k ≠ Raise KeyboardInterrupt)
         (RedisClient.key_patterns q) →
  value_of (RedisClient.get_queue_length w q s)
    = Ret (default 0
             (head (omap (fun k => usable_length (llen_reply w k))
                      [ name_prefix q +:+ ":" +:+ name q +:+ ":wait";
                        name_prefix q +:+ ":" +:+ name q +:+ ":waiting";
                        name_prefix q +:+ ":" +:+ name q ]))).
Proof.
  intros Hc Hk.
  destruct (probe_first_usable w _ s Hk) as [t Ht].
  unfold RedisClient.get_queue_length, value_of.
  cbv [mbind M_bind get] in *. rewrite Hc. cbn [negb].
  rewrite Ht. unfold RedisClient.key_patterns, get_queue_key.
  destruct (head _); reflexivity.
Qed.

(** The fallback does work when the earlier candidate raises: with a
    string stored under [myapp:jobs:wait] and the seven jobs under
    [myapp:jobs:waiting], the answer is 7. *)
Example get_queue_length_wrong_type_falls_back :
  value_of (RedisClient.get_queue_length
              (Sample.healthy 1000
                 (<["myapp:jobs:wait" := RString "x"]> Sample.only_waiting))
              Sample.myapp_jobs (Sample.started 0 0))
  = Ret 7.
Proof. vm_compute. reflexivity. Qed.

(** C4, evaluated. The keyspace holds only
    [myapp:jobs:waiting], a list of seven jobs. [LLEN myapp:jobs:wait] on
    the missing first candidate is not an error: Redis answers 0, which
    passes the test [length >= 0], so [get_queue_length] returns 0 after
    one [LLEN] and never looks at [myapp:jobs:waiting]. *)
Theorem get_queue_length_only_waiting :
  RedisClient.get_queue_length (Sample.healthy 1000 Sample.only_waiting)
      Sample.myapp_jobs (Sample.started 0 0)
  = (Ret 0, Sample.started 0 0,
     [EvLlen "myapp:jobs:wait"; EvLog DEBUG "Queue length retrieved"]).
Proof. vm_compute. reflexivity. Qed.

Lemma calm_connect (w : World) : calm (RedisClient.connect w).
Proof. unfold RedisClient.connect. calm_steps. Qed.

Lemma calm_disconnect (close_reply : option exn) :
  calm (RedisClient.disconnect close_reply).
Proof. unfold RedisClient.disconnect. calm_steps. Qed.

Lemma calm_is_connected (w : World) : calm (RedisClient.is_connected w).
Proof. unfold RedisClient.is_connected. calm_steps. Qed.

Lemma calm_probe (w : World) (keys : list string) : calm (RedisClient.probe w keys).
Proof.
  induction keys as [| k keys IH]; cbn [RedisClient.probe]; calm_steps; exact IH.
Qed.

Lemma calm_get_queue_length (w : World) (q : QueueConfig) :
  calm (RedisClient.get_queue_length w q).
Proof.
  unfold RedisClient.get_queue_length.
  apply calm_bind; [apply calm_get | intros s0].
  destruct (negb _); [calm_steps |].
  apply calm_bind; [apply calm_probe | intros r]. calm_steps.
Qed.

(** ** The Docker manager *)

Lemma calm_get_current_replicas (w : World) :
  calm (DockerManager.get_current_replicas w).
Proof. unfold DockerManager.get_current_replicas. calm_steps. Qed.

Lemma calm_scale_service (config : DockerConfig) (w : World) (target_replicas : Z) :
  calm (DockerManager.scale_service config w target_replicas).
Proof. unfold DockerManager.scale_service. calm_steps. Qed.

(** ** The control loop *)

(** [_execute_scaling] returns what [scale_service] returns. *)
Lemma execute_scaling_returns_scale_service (config : Config.t) (w : World)
    (target_replicas : Z) (reason : string) (current_time : Z) (s : State) :
  value_of (DynamicScaler._execute_scaling config w target_replicas reason
              current_time s)
  = value_of (DockerManager.scale_service (docker config) w target_replicas s).
Proof.
  unfold DynamicScaler._execute_scaling, value_of. rewrite !run_bind. cbn [log emit].
  rewrite run_bind.
  destruct (DockerManager.scale_service _ _ _ _) as [[[[] | e] s1] t1]; reflexivity.
Qed.

(** [_execute_scaling] ends with exactly one of the two verdict lines, the
    one that matches the boolean it returns. *)
Lemma execute_scaling_verdict (config : Config.t) (w : World)
    (target_replicas : Z) (reason : string) (current_time : Z) (s : State) :
  match DynamicScaler._execute_scaling config w target_replicas reason current_time s with
  | (Ret success, s', t) =>
      frame s s' ∧ sleeps t = []
      ∧ verdicts t = [if success then scaling_completed else scaling_failed]
  | (Raise _, s', t) => frame s s' ∧ quiet t
  end.
Proof.
  unfold DynamicScaler._execute_scaling. rewrite !run_bind. cbn [log emit].
  rewrite run_bind.
  destruct (calm_scale_service (docker config) w target_replicas s) as [Hf [Hv Hs]].
  unfold state_of, trace_of in *.
  destruct (DockerManager.scale_service _ _ _ _) as [[[success | e] s1] t1];
    cbn [fst snd] in *.
  - rewrite run_bind.
    destruct success; cbn [log emit mret M_ret];
      (split; [exact Hf |]);
      rewrite ?sleeps_app, ?verdicts_app, ?Hv, ?Hs; split; reflexivity.
  - split; [exact Hf |]. apply (quiet_app [_]); split; auto.
Qed.

(** Rules to walk through a computation step by step. *)
Lemma post_bind_calm {A B : Type} (m : M A) (k : A → M B) (s : State)
    (Q : result B → State → list event → Prop) :
  calm m →
  (∀ e s1 t1, frame s s1 → quiet t1 → Q (Raise e) s1 t1) →
  (∀ a s1 t1, frame s s1 → quiet t1 →
     post (k a s1) (fun r s2 t2 => Q r s2 (t1 ++ t2))) →
  post ((m ≫= k) s) Q.
Proof.
  intros Hm Hraise Hret. unfold post, value_of, state_of, trace_of in *.
  rewrite run_bind. destruct (Hm s) as [Hf Hq].
  unfold state_of, trace_of in *.
  destruct (m s) as [[[a | e] s1] t1]; cbn [fst snd] in *.
  - specialize (Hret a s1 t1 Hf Hq).
    destruct (k a s1) as [[r s2] t2]. exact Hret.
  - apply Hraise; assumption.
Qed.

Lemma post_bind {A B : Type} (m : M A) (k : A → M B) (s : State)
    (Q : result B → State → list event → Prop) :
  post (m s)
    (fun r s1 t1 =>
       match r with
       | Ret a => post (k a s1) (fun r2 s2 t2 => Q r2 s2 (t1 ++ t2))
       | Raise e => Q (Raise e) s1 t1
       end) →
  post ((m ≫= k) s) Q.
Proof.
  unfold post, value_of, state_of, trace_of. rewrite run_bind.
  destruct (m s) as [[[a | e] s1] t1]; cbn [fst snd]; [| exact id].
  destruct (k a s1) as [[r s2] t2]. exact id.
Qed.

Lemma post_get {B : Type} (k : State → M B) (s : State)
    (Q : result B → State → list event → Prop) :
  post (k s s) Q → post ((get ≫= k) s) Q.
Proof.
  unfold post, value_of, state_of, trace_of. rewrite run_bind. cbn [get].
  destruct (k s s) as [[r s2] t2]. exact id.
Qed.

Lemma post_emit {B : Type} (ev : event) (k : unit → M B) (s : State)
    (Q : result B → State → list event → Prop) :
  post (k tt s) (fun r s2 t2 => Q r s2 ([ev] ++ t2)) → post ((emit ev ≫= k) s) Q.
Proof.
  unfold post, value_of, state_of, trace_of. rewrite run_bind. cbn [emit].
  destruct (k tt s) as [[r s2] t2]. exact id.
Qed.

Lemma post_modify {B : Type} (f : State → State) (k : unit → M B) (s : State)
    (Q : result B → State → list event → Prop) :
  post (k tt (f s)) Q → post ((modify f ≫= k) s) Q.
Proof.
  unfold post, value_of, state_of, trace_of. rewrite run_bind. cbn [modify].
  destruct (k tt (f s)) as [[r s2] t2]. exact id.
Qed.

(** Rewrites the verdicts and sleeps of a composed trace with what is
    known of its parts. *)
Ltac trace_facts :=
  repeat match goal with
         | H : quiet _ |- _ => destruct H
         end;
  repeat (rewrite ?verdicts_app, ?sleeps_app;
          repeat match goal with
                 | H : verdicts _ = _ |- _ => rewrite H
                 | H : sleeps _ = _ |- _ => rewrite H
                 end);
  try reflexivity.

(** Runs a computation made of state updates and events only. *)
Ltac run :=
  cbv [post value_of state_of trace_of mbind M_bind mret M_ret emit log sleep get
       modify set_running set_consecutive_errors set_last_scale_time
       set_redis_client fst snd].

Ltac frames := unfold frame in *; cbn in *; intuition (try congruence; try lia).

(** An exception that leaves the [try] block after quiet steps. *)
Ltac escaped :=
  intros; run; split; [assumption |]; split; [frames | split; trace_facts].

Lemma loop_body_shape (config : Config.t) (w : World) (s : State) :
  post (DynamicScaler.loop_body config w s)
    (fun r s' t =>
       match r with
       | Ret _ => iteration_kind config w s DynamicScaler.Next s' t
       | Raise _ =>
           cooldown_period (timing config) ≤ time_now w - last_scale_time s
           ∧ frame s s' ∧ quiet t
       end).
Proof.
  unfold DynamicScaler.loop_body. cbv zeta. apply post_get.
  destruct (time_now w - last_scale_time s <? cooldown_period (timing config)) eqn:Hcd.
  { apply Z.ltb_lt in Hcd. apply it_cooldown. exact Hcd. }
  apply Z.ltb_ge in Hcd.
  apply post_bind_calm; [apply calm_is_connected | escaped |].
  intros connected s1 t1 F1 Q1.
  apply post_bind_calm.
  { destruct connected; calm_steps. }
  { escaped. }
  intros [] s2 t2 F2 Q2; cbn [negb].
  - apply post_bind_calm; [apply calm_get_queue_length | escaped |].
    intros queue_length s3 t3 F3 Q3.
    apply post_bind_calm; [apply calm_get_current_replicas | escaped |].
    intros current_replicas s4 t4 F4 Q4.
    apply (post_emit (EvLog INFO "Current metrics")).
    destruct (DynamicScaler._make_scaling_decision _ _ _) as [[target reason] |].
    + do 2 apply post_bind.
      pose proof (execute_scaling_verdict config w target reason (time_now w) s4) as E.
      unfold post at 1.
      destruct (DynamicScaler._execute_scaling _ _ _ _ _ _) as [[[[] | e] s5] t5];
        [destruct E as (F5 & S5 & V5) .. | destruct E as (F5 & Q5)]; run.
      * apply it_scaled; try assumption; try solve [frames]; trace_facts.
      * apply it_scale_failed; try assumption; try solve [frames]; trace_facts.
      * escaped.
    + run. apply it_no_action; try assumption; try solve [frames]; trace_facts.
  - apply post_get. apply post_modify.
    unfold DynamicScaler._handle_consecutive_errors, DynamicScaler.max_consecutive_errors.
    assert (consecutive_errors s2 = consecutive_errors s) as Hce by frames.
    destruct (consecutive_errors s2 + 1 >=? 5) eqn:Hmax;
      rewrite Z.geb_leb in Hmax; [apply Z.leb_le in Hmax | apply Z.leb_gt in Hmax]; run.
    + apply it_stop; try assumption; try solve [frames]; trace_facts.
    + apply it_backoff; try assumption; try solve [frames]; trace_facts.
      rewrite Hce. reflexivity.
Qed.

(** Every iteration ends normally and is of one of the kinds. *)
Lemma iteration_shape (config : Config.t) (w : World) (s : State) :
  ∃ fl s' t,
    DynamicScaler.iteration config w s = (Ret fl, s', t)
    ∧ iteration_kind config w s fl s' t.
Proof.
  unfold DynamicScaler.iteration. rewrite run_bind. unfold try.
  pose proof (loop_body_shape config w s) as H. unfold post in H.
  destruct (DynamicScaler.loop_body config w s) as [[[[] | e] s1] t1];
    cbn [value_of state_of trace_of fst snd] in H.
  - run. rewrite app_nil_r. eauto.
  - destruct H as (Hcd & F & Q).
    assert (consecutive_errors s1 = consecutive_errors s) as Hce by frames.
    unfold DynamicScaler._handle_consecutive_errors, DynamicScaler.max_consecutive_errors.
    destruct e;
      try (run; do 3 eexists; split; [reflexivity |];
           apply it_interrupted; [assumption | frames | split; trace_facts]).
    all: run; destruct (consecutive_errors s1 + 1 >=? 5) eqn:Hmax;
      rewrite Z.geb_leb in Hmax;
      [apply Z.leb_le in Hmax | apply Z.leb_gt in Hmax];
      do 3 eexists; (split; [reflexivity |]).
    all: first
      [ solve [apply it_stop; try assumption; try solve [frames]; trace_facts]
      | solve [apply it_backoff; try assumption; try solve [frames]; trace_facts;
               rewrite Hce; reflexivity] ].
Qed.

(** A whole pass, signal included: as the iteration, except that a signal
    clears [running]. *)
Lemma cycle_shape (config : Config.t) (w : World) (s : State) :
  ∃ fl s1 t1 s' t,
    DynamicScaler.cycle config w s = (Ret fl, s', t)
    ∧ iteration_kind config w s fl s1 t1
    ∧ consecutive_errors s' = consecutive_errors s1
    ∧ last_scale_time s' = last_scale_time s1
    ∧ running s' = (if signal_received w then false else running s1)
    ∧ verdicts t = verdicts t1
    ∧ sleeps t = sleeps t1.
Proof.
  destruct (iteration_shape config w s) as (fl & s1 & t1 & E & K).
  exists fl, s1, t1. unfold DynamicScaler.cycle. rewrite run_bind, E.
  unfold DynamicScaler._signal_handler.
  destruct (signal_received w); run; do 2 eexists;
    (split; [reflexivity |]); (split; [exact K |]);
    repeat split; rewrite ?verdicts_app, ?sleeps_app, ?app_nil_r; reflexivity.
Qed.

(** One of the three lines is in a trace exactly when it is among the
    trace's verdicts. *)
Lemma verdict_elem (ev : event) (t : list event) :
  ev ∈ [scaling_completed; scaling_failed; no_action] →
  ev ∈ t ↔ ev ∈ verdicts t.
Proof. intros H. unfold verdicts. rewrite list_elem_of_filter. tauto. Qed.

(** Decides the membership of a given line in a list of given lines. *)
Ltac elems H :=
  repeat (apply elem_of_cons in H as [H | H]; [try discriminate H |]);
  try (apply elem_of_nil in H; destruct H).

(** What a pass does to the counter and to [last_scale_time], by the
    verdict it logs. *)
Lemma cycle_verdict (config : Config.t) (w : World) (s : State) :
  ∃ fl s' t,
    DynamicScaler.cycle config w s = (Ret fl, s', t)
    ∧ ((verdicts t = [scaling_completed]
        ∧ consecutive_errors s' = 0 ∧ last_scale_time s' = time_now w)
       ∨ (verdicts t = [scaling_failed]
          ∧ consecutive_errors s' = 0 ∧ last_scale_time s' = last_scale_time s)
       ∨ (verdicts t = [no_action]
          ∧ consecutive_errors s' = 0 ∧ last_scale_time s' = last_scale_time s)
       ∨ (verdicts t = [] ∧ last_scale_time s' = last_scale_time s)).
Proof.
  destruct (cycle_shape config w s)
    as (fl & s1 & t1 & s' & t & E & K & Hce & Hlst & _ & Hv & _).
  exists fl, s', t. split; [exact E |].
  rewrite Hv, Hce, Hlst.
  destruct K;
    try match goal with Hq : quiet _ |- _ => destruct Hq end;
    try (right; right; right; split; [assumption | frames]).
  - right. right. right. split; reflexivity.
  - right. right. left. auto.
  - left. auto.
  - right. left. auto.
Qed.

(** What the loop does with a failed actuation. In every pass in which a
    decision exists and the actuation returns failure (the pass logs
    "Scaling failed"), the counter of consecutive errors is 0 at the end of
    the pass, whatever it was before, and [last_scale_time] keeps its
    value: the assignment under the comment "Reset error counter on
    successful operation" is reached after a failure as well. *)
Theorem failed_actuation_resets_counter (config : Config.t) (w : World) (s : State) :
  scaling_failed ∈ trace_of (DynamicScaler.cycle config w s) →
  consecutive_errors (state_of (DynamicScaler.cycle config w s)) = 0
  ∧ last_scale_time (state_of (DynamicScaler.cycle config w s)) = last_scale_time s.
Proof.
  destruct (cycle_verdict config w s) as (fl & s' & t & E & H).
  rewrite E. cbn [trace_of state_of fst snd]. intros Hin.
  apply verdict_elem in Hin; [| rewrite !elem_of_cons; auto].
  destruct H as [(Hv & _) | [(_ & ? & ?) | [(Hv & _) | (Hv & _)]]];
    try (rewrite Hv in Hin; elems Hin).
  auto.
Qed.

Lemma failed_actuation_resets_counter_witness :
  consecutive_errors
    (state_of (DynamicScaler.cycle Sample.config
                 (Sample.compose_fails 1000 Sample.six_waiting)
                 (Sample.started 0 1))) = 0
  ∧ last_scale_time
      (state_of (DynamicScaler.cycle Sample.config
                   (Sample.compose_fails 1000 Sample.six_waiting)
                   (Sample.started 0 1))) = last_scale_time (Sample.started 0 1).
Proof.
  apply (failed_actuation_resets_counter Sample.config
           (Sample.compose_fails 1000 Sample.six_waiting) (Sample.started 0 1)).
  apply verdict_elem; [rewrite !elem_of_cons; auto |].
  vm_compute. apply list_elem_of_singleton. reflexivity.
Defined.

(** C1, at the failing input. A failed actuation is to add one to the
    counter of consecutive errors. With six jobs waiting and two workers
    the decision is to scale to three; [docker compose] exits with an
    error, so the actuation returns failure and the pass logs "Scaling
    failed". The counter, 1 before the pass, is 0 after it and not 2: the
    loop resets it "on successful operation" after the failure too. *)
Lemma failed_actuation_not_counted :
  DynamicScaler._make_scaling_decision Sample.config 6 2
    = Some (3, "Queue length 6 > threshold 5")
  ∧ verdicts (trace_of (DynamicScaler.cycle Sample.config
                          (Sample.compose_fails 1000 Sample.six_waiting)
                          (Sample.started 0 1))) = [scaling_failed]
  ∧ consecutive_errors
      (state_of (DynamicScaler.cycle Sample.config
                   (Sample.compose_fails 1000 Sample.six_waiting)
                   (Sample.started 0 1))) = 0
  ∧ consecutive_errors
      (state_of (DynamicScaler.cycle Sample.config
                   (Sample.compose_fails 1000 Sample.six_waiting)
                   (Sample.started 0 1)))
    ≠ consecutive_errors (Sample.started 0 1) + 1.
Proof.
  split; [reflexivity |]. split; [vm_compute; reflexivity |].
  split; [vm_compute; reflexivity |]. vm_compute. discriminate.
Qed.

(** C2, as the code has it. A pass that starts within [cooldown_period] of
    the last actuation logs the cooldown, sleeps [polling_interval] and
    does nothing else: no [scale_service] and no subprocess, and also no
    ping, no [LLEN] and no replica count. The state is left as it was. *)
Theorem cooldown_skips_the_pass (config : Config.t) (w : World) (s : State) :
  time_now w - last_scale_time s < cooldown_period (timing config) →
  DynamicScaler.iteration config w s
    = (Ret DynamicScaler.Next, s,
       [EvLog DEBUG "In cooldown period";
        EvSleep (polling_interval (timing config))])
  ∧ (∀ ev, ev ∈ trace_of (DynamicScaler.iteration config w s) →
       (∀ command, ev ≠ EvSubprocessRun command)
       ∧ ev ≠ EvLog INFO "Scaling decision made"
       ∧ (∀ key, ev ≠ EvLlen key)
       ∧ ev ≠ EvContainersList
       ∧ ev ≠ EvPing).
Proof.
  intros Hcd.
  assert (DynamicScaler.iteration config w s
          = (Ret DynamicScaler.Next, s,
             [EvLog DEBUG "In cooldown period";
              EvSleep (polling_interval (timing config))])) as E.
  { unfold DynamicScaler.iteration, DynamicScaler.loop_body. cbv zeta.
    rewrite run_bind. unfold try. rewrite run_bind. cbn [get].
    apply Z.ltb_lt in Hcd. rewrite Hcd. reflexivity. }
  split; [exact E |].
  rewrite E. cbn [trace_of snd]. intros ev Hin.
  elems Hin; subst ev; repeat split; try intros ?; discriminate.
Qed.

Lemma cooldown_skips_the_pass_witness :
  DynamicScaler.iteration Sample.config (Sample.healthy 1060 Sample.six_waiting)
      (Sample.started 1000 0)
    = (Ret DynamicScaler.Next, Sample.started 1000 0,
       [EvLog DEBUG "In cooldown period"; EvSleep 30])
  ∧ (∀ ev, ev ∈ trace_of (DynamicScaler.iteration Sample.config
                            (Sample.healthy 1060 Sample.six_waiting)
                            (Sample.started 1000 0)) →
       (∀ command, ev ≠ EvSubprocessRun command)
       ∧ ev ≠ EvLog INFO "Scaling decision made"
       ∧ (∀ key, ev ≠ EvLlen key)
       ∧ ev ≠ EvContainersList
       ∧ ev ≠ EvPing).
Proof.
  apply (cooldown_skips_the_pass Sample.config
           (Sample.healthy 1060 Sample.six_waiting) (Sample.started 1000 0)).
  vm_compute. reflexivity.
Defined.

(** C2, counterexample. Sixty seconds after an actuation, with a cooldown
    of 120, six jobs waiting and two workers: the decision function would
    fire, and the pass neither reads the queue length nor counts the
    replicas. *)
Lemma cooldown_measures_nothing :
  1060 - last_scale_time (Sample.started 1000 0)
    < cooldown_period (timing Sample.config)
  ∧ DynamicScaler._make_scaling_decision Sample.config 6 2
    = Some (3, "Queue length 6 > threshold 5")
  ∧ trace_of (DynamicScaler.cycle Sample.config
                (Sample.healthy 1060 Sample.six_waiting) (Sample.started 1000 0))
    = [EvLog DEBUG "In cooldown period"; EvSleep 30]
  ∧ (∀ key, EvLlen key
            ∉ trace_of (DynamicScaler.cycle Sample.config
                          (Sample.healthy 1060 Sample.six_waiting)
                          (Sample.started 1000 0)))
  ∧ EvContainersList
    ∉ trace_of (DynamicScaler.cycle Sample.config
                  (Sample.healthy 1060 Sample.six_waiting) (Sample.started 1000 0)).
Proof.
  split; [vm_compute; reflexivity |]. split; [reflexivity |].
  split; [reflexivity |]. split.
  - intros key Hin. vm_compute in Hin. elems Hin.
  - intros Hin. vm_compute in Hin. elems Hin.
Qed.

(** C7. [last_scale_time] moves only on a successful actuation. In a pass
    that logs "Scaling completed successfully" it becomes the time read at
    the start of the pass. In every other pass it keeps its value: in
    particular when the actuation fails ("Scaling failed") and when no
    decision is produced ("No scaling action needed"). *)
Theorem last_scale_time_moves_on_success_only
    (config : Config.t) (w : World) (s : State) :
  (scaling_completed ∈ trace_of (DynamicScaler.cycle config w s) →
   last_scale_time (state_of (DynamicScaler.cycle config w s)) = time_now w)
  ∧ (scaling_completed ∉ trace_of (DynamicScaler.cycle config w s) →
     last_scale_time (state_of (DynamicScaler.cycle config w s)) = last_scale_time s)
  ∧ (scaling_failed ∈ trace_of (DynamicScaler.cycle config w s) →
     last_scale_time (state_of (DynamicScaler.cycle config w s)) = last_scale_time s)
  ∧ (no_action ∈ trace_of (DynamicScaler.cycle config w s) →
     last_scale_time (state_of (DynamicScaler.cycle config w s)) = last_scale_time s).
Proof.
  destruct (cycle_verdict config w s) as (fl & s' & t & E & H).
  rewrite E. cbn [trace_of state_of fst snd].
  rewrite !(verdict_elem _ t) by (rewrite !elem_of_cons; auto).
  destruct H as [(Hv & _ & ?) | [(Hv & _ & ?) | [(Hv & _ & ?) | (Hv & ?)]]];
    rewrite Hv; repeat split; intros Hin; try assumption;
    try (elems Hin; fail).
  destruct Hin. apply list_elem_of_singleton. reflexivity.
Qed.

Lemma last_scale_time_moves_on_success_only_witness :
  last_scale_time
    (state_of (DynamicScaler.cycle Sample.config
                 (Sample.healthy 1000 Sample.six_waiting) (Sample.started 0 0)))
  = 1000.
Proof.
  apply (proj1 (last_scale_time_moves_on_success_only Sample.config
                  (Sample.healthy 1000 Sample.six_waiting) (Sample.started 0 0))).
  apply verdict_elem; [rewrite !elem_of_cons; auto |].
  vm_compute. apply list_elem_of_singleton. reflexivity.
Defined.

(** ** Backoff and fail-stop *)

(** With [running] cleared the loop runs no pass: it goes to [_shutdown]. *)
Lemma while_running_cleared (config : Config.t) (ws : list World)
    (close_reply : option exn) (s : State) :
  running s = false →
  DynamicScaler.while_running config ws close_reply s
  = DynamicScaler.finish close_reply s.
Proof. intros H. destruct ws; cbn [DynamicScaler.while_running]; rewrite H; reflexivity. Qed.

(** [_shutdown] ends the run in [Stopped], unless [close()] is interrupted. *)
Lemma finish_stopped (close_reply : option exn) (s : State) :
  close_reply ≠ Some KeyboardInterrupt →
  ∃ s' t, DynamicScaler.finish close_reply s = (DynamicScaler.Stopped, s', t)
          ∧ running s' = false ∧ sleeps t = [].
Proof.
  intros H. unfold DynamicScaler.finish, DynamicScaler._shutdown,
    RedisClient.disconnect, try.
  destruct (redis_client s) eqn:Hc; [destruct close_reply as [[] |] |];
    try congruence; run; rewrite ?Hc; do 2 eexists; repeat split.
Qed.

(** A pass that counts an error: below five it backs off for twice the
    new count and goes on; at five it clears [running] without sleeping. *)
Lemma counted_error (config : Config.t) (w : World) (s : State) :
  0 ≤ consecutive_errors s →
  consecutive_errors (state_of (DynamicScaler.cycle config w s))
    = consecutive_errors s + 1 →
  ∃ s' t,
    DynamicScaler.cycle config w s = (Ret DynamicScaler.Next, s', t)
    ∧ ((consecutive_errors s + 1 < 5
        ∧ sleeps t = [Z.min ((consecutive_errors s + 1) * 2) 60]
        ∧ running s' = (if signal_received w then false else running s))
       ∨ (5 ≤ consecutive_errors s + 1 ∧ sleeps t = [] ∧ running s' = false)).
Proof.
  intros Hpos.
  destruct (cycle_shape config w s)
    as (fl & s1 & t1 & s' & t & E & K & Hce & _ & Hrun & _ & Hs).
  rewrite E. cbn [state_of fst snd]. rewrite Hce. intros Hcount.
  destruct K; try (exfalso; frames; fail).
  - exists s', t. split; [reflexivity |]. left.
    repeat split; [assumption | congruence |].
    rewrite Hrun. destruct (signal_received w); congruence.
  - exists s', t. split; [reflexivity |]. right.
    repeat split; [assumption | congruence |].
    rewrite Hrun. destruct (signal_received w); congruence.
Qed.

(** After a pass that clears [running], the loop goes straight to
    [_shutdown]: the worlds that are left are not consumed. *)
Lemma while_running_last_pass (config : Config.t) (w : World) (ws : list World)
    (close_reply : option exn) (s s' : State) (t : list event) :
  running s = true →
  DynamicScaler.cycle config w s = (Ret DynamicScaler.Next, s', t) →
  running s' = false →
  DynamicScaler.while_running config (w :: ws) close_reply s
  = match DynamicScaler.finish close_reply s' with
    | (o, s2, t2) => (o, s2, t ++ t2)
    end.
Proof.
  intros Hrun E Hstop. cbn [DynamicScaler.while_running].
  rewrite Hrun, E, (while_running_cleared _ _ _ _ Hstop). reflexivity.
Qed.

(** While the loop runs, the counter stays within the budget: it is below
    five at every loop test that lets a pass start. *)
Lemma budget_kept (config : Config.t) (w : World) (s : State) :
  0 ≤ consecutive_errors s < 5 →
  running (state_of (DynamicScaler.cycle config w s)) = true →
  0 ≤ consecutive_errors (state_of (DynamicScaler.cycle config w s)) < 5.
Proof.
  intros Hce.
  destruct (cycle_shape config w s)
    as (fl & s1 & t1 & s' & t & E & K & Hce' & _ & Hrun & _).
  rewrite E. cbn [state_of fst snd]. rewrite Hce', Hrun.
  destruct (signal_received w); [discriminate |].
  destruct K; intros; frames.
Qed.

(** C5. The handler sleeps [min(consecutive_errors * 2, 60)] seconds while
    the count is below five, which gives 2, 4, 6 and 8 seconds for the
    counts 1 to 4; at the count 5 it does not sleep and clears [running].
    In the loop, the pass that is the n-th consecutive failure sleeps that
    long and no longer, and the fifth one ends the loop in [Stopped]. *)
Theorem backoff_sequence (config : Config.t) (w : World) (s : State) :
  map (fun n => sleeps (trace_of (DynamicScaler._handle_consecutive_errors n
                                    DynamicScaler.max_consecutive_errors s)))
      [1; 2; 3; 4; 5]
    = [[2]; [4]; [6]; [8]; []]
  ∧ (∀ n, 1 ≤ n < 5 →
       DynamicScaler._handle_consecutive_errors n
         DynamicScaler.max_consecutive_errors s
       = (Ret tt, s, [EvLog WARNING "Backing off due to errors";
                      EvSleep (Z.min (n * 2) 60)]))
  ∧ running (state_of (DynamicScaler._handle_consecutive_errors 5
                         DynamicScaler.max_consecutive_errors s)) = false
  ∧ (∀ n, 1 ≤ n ≤ 5 →
       running s = true →
       consecutive_errors s = n - 1 →
       consecutive_errors (state_of (DynamicScaler.cycle config w s)) = n →
       sleeps (trace_of (DynamicScaler.cycle config w s))
         = (if n <? 5 then [Z.min (n * 2) 60] else [])
       ∧ (n = 5 → ∀ ws close_reply,
            close_reply ≠ Some KeyboardInterrupt →
            fst (fst (DynamicScaler.while_running config (w :: ws) close_reply s))
              = DynamicScaler.Stopped)).
Proof.
  split; [reflexivity |]. split; [| split; [reflexivity |]].
  - intros n [H1 H5]. unfold DynamicScaler._handle_consecutive_errors,
      DynamicScaler.max_consecutive_errors.
    rewrite Z.geb_leb. apply Z.leb_gt in H5. rewrite H5. reflexivity.
  - intros n Hn Hrun Hce Hcount.
    destruct (counted_error config w s) as (s' & t & E & H); [lia | lia |].
    rewrite E. cbn [trace_of state_of fst snd].
    replace (consecutive_errors s + 1) with n in H by lia.
    destruct H as [(Hlt & Hs & _) | (Hge & Hs & Hstop)].
    + apply Z.ltb_lt in Hlt as Hlt'. rewrite Hlt', Hs.
      split; [reflexivity | lia].
    + apply Z.ltb_ge in Hge as Hge'. rewrite Hge', Hs.
      split; [reflexivity |]. intros _ ws close_reply Hclose.
      rewrite (while_running_last_pass _ _ _ _ _ _ _ Hrun E Hstop).
      destruct (finish_stopped close_reply s' Hclose) as (s2 & t2 & -> & _).
      reflexivity.
Qed.

Lemma backoff_sequence_witness :
  sleeps (trace_of (DynamicScaler.cycle Sample.config (Sample.redis_down 1000)
                      (Sample.started 0 4)))
    = (if 5 <? 5 then [Z.min (5 * 2) 60] else [])
  ∧ (5 = 5 → ∀ ws close_reply,
       close_reply ≠ Some KeyboardInterrupt →
       fst (fst (DynamicScaler.while_running Sample.config
                   (Sample.redis_down 1000 :: ws) close_reply (Sample.started 0 4)))
         = DynamicScaler.Stopped).
Proof.
  apply (proj2 (proj2 (proj2 (backoff_sequence Sample.config
                                (Sample.redis_down 1000) (Sample.started 0 4))))
           5); [lia | reflexivity | reflexivity | vm_compute; reflexivity].
Defined.

(** Five passes in a row with Redis down, from the start of the loop: the
    sleeps are 2, 4, 6 and 8 seconds, and the loop stops without looking at
    the sixth world. *)
Example five_failures_stop_the_loop :
  ∀ ws,
    let x := DynamicScaler._scaling_loop Sample.config
               (Sample.redis_down 1000 :: Sample.redis_down 1002
                :: Sample.redis_down 1006 :: Sample.redis_down 1012
                :: Sample.redis_down 1020 :: ws)
               None (Sample.started 0 0) in
    fst (fst x) = DynamicScaler.Stopped
    ∧ sleeps (snd x) = [2; 4; 6; 8]
    ∧ running (snd (fst x)) = false
    ∧ consecutive_errors (snd (fst x)) = 5.
Proof.
  intros ws. cbv zeta.
  unfold DynamicScaler._scaling_loop. cbn [set_consecutive_errors modify].
  do 5 (cbn [DynamicScaler.while_running running Sample.started];
        match goal with
        | |- context [DynamicScaler.cycle ?c ?w ?s] =>
            let r := eval vm_compute in (DynamicScaler.cycle c w s) in
            change (DynamicScaler.cycle c w s) with r
        end;
        cbv iota beta).
  rewrite while_running_cleared by reflexivity.
  vm_compute. repeat split.
Qed.

(** The counter after a pass is the old one, the old one plus one, or 0. *)
Lemma counter_moves (config : Config.t) (w : World) (s : State) :
  consecutive_errors (state_of (DynamicScaler.cycle config w s)) = consecutive_errors s
  ∨ consecutive_errors (state_of (DynamicScaler.cycle config w s))
    = consecutive_errors s + 1
  ∨ consecutive_errors (state_of (DynamicScaler.cycle config w s)) = 0.
Proof.
  destruct (cycle_shape config w s)
    as (fl & s1 & t1 & s' & t & E & K & Hce & _).
  rewrite E. cbn [state_of fst snd]. rewrite Hce.
  destruct K; frames.
Qed.

(** C6. When a pass brings the counter to 5, it clears [running]; the loop
    test that follows fails, so the loop goes to [_shutdown] at once and
    runs no further pass, whatever worlds are left. The run ends in
    [Stopped]. *)
Theorem fail_stop (config : Config.t) (w : World) (ws : list World)
    (close_reply : option exn) (s : State) :
  running s = true →
  consecutive_errors s < 5 →
  consecutive_errors (state_of (DynamicScaler.cycle config w s)) = 5 →
  running (state_of (DynamicScaler.cycle config w s)) = false
  ∧ DynamicScaler.while_running config (w :: ws) close_reply s
    = (match DynamicScaler.finish close_reply
               (state_of (DynamicScaler.cycle config w s)) with
       | (o, s2, t2) => (o, s2, trace_of (DynamicScaler.cycle config w s) ++ t2)
       end)
  ∧ DynamicScaler.while_running config (w :: ws) close_reply s
    = DynamicScaler.while_running config [w] close_reply s
  ∧ (close_reply ≠ Some KeyboardInterrupt →
     fst (fst (DynamicScaler.while_running config (w :: ws) close_reply s))
       = DynamicScaler.Stopped).
Proof.
  intros Hrun Hlt Hfive.
  assert (consecutive_errors s = 4) as Hfour.
  { destruct (counter_moves config w s) as [H | [H | H]]; lia. }
  destruct (counted_error config w s) as (s' & t & E & H); [lia | lia |].
  destruct H as [(Hlt' & _) | (_ & _ & Hstop)]; [lia |].
  rewrite E. cbn [state_of trace_of fst snd].
  rewrite !(while_running_last_pass _ _ _ _ _ _ _ Hrun E Hstop).
  repeat split; try assumption.
  intros Hclose.
  destruct (finish_stopped close_reply s' Hclose) as (s2 & t2 & -> & _).
  reflexivity.
Qed.

Lemma fail_stop_witness :
  running (state_of (DynamicScaler.cycle Sample.config (Sample.redis_down 1000)
                       (Sample.started 0 4))) = false
  ∧ DynamicScaler.while_running Sample.config
      [Sample.redis_down 1000; Sample.healthy 1010 Sample.six_waiting] None
      (Sample.started 0 4)
    = (match DynamicScaler.finish None
               (state_of (DynamicScaler.cycle Sample.config
                            (Sample.redis_down 1000) (Sample.started 0 4))) with
       | (o, s2, t2) =>
           (o, s2,
            trace_of (DynamicScaler.cycle Sample.config (Sample.redis_down 1000)
                        (Sample.started 0 4)) ++ t2)
       end)
  ∧ DynamicScaler.while_running Sample.config
      [Sample.redis_down 1000; Sample.healthy 1010 Sample.six_waiting] None
      (Sample.started 0 4)
    = DynamicScaler.while_running Sample.config [Sample.redis_down 1000] None
        (Sample.started 0 4)
  ∧ (None ≠ Some KeyboardInterrupt →
     fst (fst (DynamicScaler.while_running Sample.config
                 [Sample.redis_down 1000; Sample.healthy 1010 Sample.six_waiting]
                 None (Sample.started 0 4)))
       = DynamicScaler.Stopped).
Proof.
  apply (fail_stop Sample.config (Sample.redis_down 1000)
           [Sample.healthy 1010 Sample.six_waiting] None (Sample.started 0 4));
    [reflexivity | vm_compute; reflexivity | vm_compute; reflexivity].
Defined.

(** * Further properties *)

(** ** Queue length *)

Lemma llens_app (t1 t2 : list event) : llens (t1 ++ t2) = llens t1 ++ llens t2.
Proof. apply omap_app. Qed.

Lemma subprocess_runs_app (t1 t2 : list event) :
  subprocess_runs (t1 ++ t2) = subprocess_runs t1 ++ subprocess_runs t2.
Proof. apply omap_app. Qed.

Lemma external_calls_app (t1 t2 : list event) :
  external_calls (t1 ++ t2) = external_calls t1 ++ external_calls t2.
Proof. apply filter_app. Qed.

Lemma post_conseq {A : Type} (x : result A * State * list event)
    (Q Q' : result A → State → list event → Prop) :
  post x Q → (∀ r s t, Q r s t → Q' r s t) → post x Q'.
Proof. unfold post. auto. Qed.

Lemma post_and {A : Type} (x : result A * State * list event)
    (Q Q' : result A → State → list event → Prop) :
  post x Q → post x Q' → post x (fun r s t => Q r s t ∧ Q' r s t).
Proof. unfold post. auto. Qed.

(** The probe keeps the state, never hands back a negative length, lets no
    [Exception] escape, and asks for the keys it is given, in order, up to
    the one that answers. *)
Lemma probe_careful (w : World) (keys : list string) (s : State) :
  post (RedisClient.probe w keys s)
    (fun r s' t =>
       s' = s
       ∧ match r with
         | Ret (Some n) => 0 ≤ n
         | Ret None => llens t = keys
         | Raise e => is_Exception e = false
         end
       ∧ llens t `prefix_of` keys
       ∧ external_calls t = EvLlen <$> llens t).
Proof.
  induction keys as [| k keys IH].
  { split; [reflexivity |]. split; [reflexivity |].
    split; [apply prefix_nil | reflexivity]. }
  cbn [RedisClient.probe]. apply post_emit.
  assert (∀ pre, external_calls pre = [] → llens pre = [] →
            post (RedisClient.probe w keys s)
              (fun r s' t =>
                 s' = s
                 ∧ match r with
                   | Ret (Some n) => 0 ≤ n
                   | Ret None => llens ([EvLlen k] ++ pre ++ t) = k :: keys
                   | Raise e => is_Exception e = false
                   end
                 ∧ llens ([EvLlen k] ++ pre ++ t) `prefix_of` (k :: keys)
                 ∧ external_calls ([EvLlen k] ++ pre ++ t)
                   = EvLlen <$> llens ([EvLlen k] ++ pre ++ t))) as Hnext.
  { intros pre Hpx Hpl. eapply post_conseq; [exact IH |].
    intros r s' t (-> & Hr & Hp & Hx). split; [reflexivity |].
    rewrite !llens_app, !external_calls_app, Hpx, Hpl, Hx.
    change (llens [EvLlen k]) with [k].
    change (external_calls [EvLlen k]) with [EvLlen k]. cbn [app].
    split; [destruct r as [[n |] | e]; [assumption | congruence | assumption] |].
    split; [apply prefix_cons; assumption | reflexivity]. }
  destruct (llen_reply w k) as [[n |] | e].
  - destruct (0 <=? n) eqn:Hn.
    + apply Z.leb_le in Hn. run. split; [reflexivity |]. split; [exact Hn |].
      split; [| reflexivity]. exists keys. reflexivity.
    + apply (Hnext []); reflexivity.
  - apply (Hnext []); reflexivity.
  - destruct (is_ResponseError e) eqn:Hre; [| destruct (is_Exception e) eqn:Hex].
    + apply post_emit.
      apply (Hnext [EvLog DEBUG "Key not found or not a list"]); reflexivity.
    + apply post_emit.
      apply (Hnext [EvLog WARNING "Error checking queue key"]); reflexivity.
    + run. split; [reflexivity |]. split; [exact Hex |].
      split; [| reflexivity]. exists keys. reflexivity.
Qed.

(** The probe asks for its keys in order and stops at the first whose
    reply ends it. *)
Lemma probe_asks (w : World) (keys : list string) (s : State) :
  post (RedisClient.probe w keys s) (fun _ _ t => llens t = keys_asked w keys).
Proof.
  induction keys as [| k keys IH]; [reflexivity |].
  cbn [RedisClient.probe keys_asked]. apply post_emit.
  assert (∀ pre, llens pre = [] →
            post (RedisClient.probe w keys s)
              (fun _ _ t => llens ([EvLlen k] ++ pre ++ t) = k :: keys_asked w keys))
    as Hnext.
  { intros pre Hpl. eapply post_conseq; [exact IH |].
    intros r s' t Ht. rewrite !llens_app, Hpl, Ht. reflexivity. }
  destruct (llen_reply w k) as [[n |] | e]; cbn [ends_probe].
  - destruct (0 <=? n); [run; reflexivity | apply (Hnext []); reflexivity].
  - apply (Hnext []); reflexivity.
  - destruct (is_ResponseError e) eqn:Hre; [| destruct (is_Exception e) eqn:Hex].
    + assert (is_Exception e = true) as -> by (destruct e; try discriminate Hre; reflexivity).
      apply post_emit.
      apply (Hnext [EvLog DEBUG "Key not found or not a list"]); reflexivity.
    + apply post_emit.
      apply (Hnext [EvLog WARNING "Error checking queue key"]); reflexivity.
    + run. reflexivity.
Qed.

(** [get_queue_length] never returns a negative number, whatever Redis
    replies (a negative integer, [None], an error), keeps the state, and
    lets no [Exception] escape: only an interrupt can leave it. *)
Theorem get_queue_length_never_negative (w : World) (q : QueueConfig) (s : State) :
  state_of (RedisClient.get_queue_length w q s) = s
  ∧ match value_of (RedisClient.get_queue_length w q s) with
    | Ret n => 0 ≤ n
    | Raise e => e = KeyboardInterrupt
    end.
Proof.
  change (post (RedisClient.get_queue_length w q s)
            (fun r s' _ => s' = s ∧ match r with
                                    | Ret n => 0 ≤ n
                                    | Raise e => e = KeyboardInterrupt
                                    end)).
  unfold RedisClient.get_queue_length. apply post_get.
  destruct (redis_client s); cbn [negb]; [| run; split; [reflexivity | lia]].
  apply post_bind. eapply post_conseq; [apply probe_careful |].
  intros [[n |] | e] s' t (-> & Hr & _); run.
  - split; [reflexivity | exact Hr].
  - split; [reflexivity | lia].
  - split; [reflexivity |]. destruct e; try discriminate Hr. reflexivity.
Qed.

(** The only calls [get_queue_length] makes to the outside are [LLEN]s on
    the three candidate keys, in their order, stopping at the first that
    answers: at most three of them, and none without a client. With a
    client the first key is always asked, the second exactly when the
    reply to the first did not end the probe, the third exactly when
    neither of the two replies did. *)
Theorem get_queue_length_asks_in_order (w : World) (q : QueueConfig) (s : State) :
  llens (trace_of (RedisClient.get_queue_length w q s))
    `prefix_of` [ name_prefix q +:+ ":" +:+ name q +:+ ":wait";
                  name_prefix q +:+ ":" +:+ name q +:+ ":waiting";
                  name_prefix q +:+ ":" +:+ name q ]
  ∧ external_calls (trace_of (RedisClient.get_queue_length w q s))
    = EvLlen <$> llens (trace_of (RedisClient.get_queue_length w q s))
  ∧ (length (llens (trace_of (RedisClient.get_queue_length w q s))) ≤ 3)%nat
  ∧ (redis_client s = false →
     llens (trace_of (RedisClient.get_queue_length w q s)) = [])
  ∧ (redis_client s = true →
     llens (trace_of (RedisClient.get_queue_length w q s))
     = if ends_probe (llen_reply w (name_prefix q +:+ ":" +:+ name q +:+ ":wait"))
       then [ name_prefix q +:+ ":" +:+ name q +:+ ":wait" ]
       else if ends_probe
                 (llen_reply w (name_prefix q +:+ ":" +:+ name q +:+ ":waiting"))
       then [ name_prefix q +:+ ":" +:+ name q +:+ ":wait";
              name_prefix q +:+ ":" +:+ name q +:+ ":waiting" ]
       else [ name_prefix q +:+ ":" +:+ name q +:+ ":wait";
              name_prefix q +:+ ":" +:+ name q +:+ ":waiting";
              name_prefix q +:+ ":" +:+ name q ]).
Proof.
  change (post (RedisClient.get_queue_length w q s)
            (fun _ _ t =>
               llens t `prefix_of` RedisClient.key_patterns q
               ∧ external_calls t = EvLlen <$> llens t
               ∧ (length (llens t) ≤ 3)%nat
               ∧ (redis_client s = false → llens t = [])
               ∧ (redis_client s = true →
                  llens t
                  = if ends_probe (llen_reply w (get_queue_key q "wait"))
                    then [ get_queue_key q "wait" ]
                    else if ends_probe (llen_reply w (get_queue_key q "waiting"))
                    then [ get_queue_key q "wait"; get_queue_key q "waiting" ]
                    else RedisClient.key_patterns q))).
  unfold RedisClient.get_queue_length. apply post_get.
  destruct (redis_client s); cbn [negb].
  - apply post_bind.
    eapply post_conseq; [apply post_and; [apply probe_careful | apply probe_asks] |].
    intros r s' t [(-> & _ & Hp & Hx) Hk].
    assert (length (llens t) ≤ 3)%nat as Hlen
        by (apply prefix_length in Hp; exact Hp).
    assert (llens t
            = if ends_probe (llen_reply w (get_queue_key q "wait"))
              then [ get_queue_key q "wait" ]
              else if ends_probe (llen_reply w (get_queue_key q "waiting"))
              then [ get_queue_key q "wait"; get_queue_key q "waiting" ]
              else RedisClient.key_patterns q) as Hasked.
    { rewrite Hk. unfold RedisClient.key_patterns. cbn [keys_asked].
      destruct (ends_probe (llen_reply w (get_queue_key q "wait")));
        [reflexivity |].
      destruct (ends_probe (llen_reply w (get_queue_key q "waiting")));
        [reflexivity |].
      destruct (ends_probe (llen_reply w (name_prefix q +:+ ":" +:+ name q)));
        reflexivity. }
    destruct r as [[n |] |]; run;
      rewrite ?llens_app, ?external_calls_app;
      try change (llens [EvLog WARNING "No valid queue keys found, assuming length 0"])
        with (@nil string);
      try change (external_calls
                    [EvLog WARNING "No valid queue keys found, assuming length 0"])
        with (@nil event);
      rewrite ?app_nil_r; repeat split; try assumption; try discriminate;
      intros _; exact Hasked.
  - run. repeat split; [apply prefix_nil | cbn; lia | discriminate].
Qed.

(** With a string stored under [myapp:jobs:wait] and the jobs under
    [myapp:jobs:waiting], the first [LLEN] raises, the second answers, and
    the third key is not asked. *)
Lemma get_queue_length_asks_in_order_witness :
  llens (trace_of (RedisClient.get_queue_length
                     (Sample.healthy 1000
                        (<["myapp:jobs:wait" := RString "x"]> Sample.only_waiting))
                     Sample.myapp_jobs (Sample.started 0 0)))
  = ["myapp:jobs:wait"; "myapp:jobs:waiting"].
Proof.
  rewrite (proj2 (proj2 (proj2 (proj2
             (get_queue_length_asks_in_order
                (Sample.healthy 1000
                   (<["myapp:jobs:wait" := RString "x"]> Sample.only_waiting))
                Sample.myapp_jobs (Sample.started 0 0))))) eq_refl).
  vm_compute. reflexivity.
Defined.

(** A first candidate key that answers with a length ends the probe. *)
Lemma first_key_answers (w : World) (q : QueueConfig) (s : State) (n : Z) :
  redis_client s = true →
  llen_reply w (name_prefix q +:+ ":" +:+ name q +:+ ":wait") = Ret (Some n) →
  0 ≤ n →
  RedisClient.get_queue_length w q s
  = (Ret n, s, [EvLlen (name_prefix q +:+ ":" +:+ name q +:+ ":wait");
                EvLog DEBUG "Queue length retrieved"]).
Proof.
  intros Hc Hw Hn.
  unfold RedisClient.get_queue_length, RedisClient.key_patterns, get_queue_key.
  change (":" +:+ "wait") with ":wait".
  rewrite run_bind. cbn [get]. rewrite Hc. cbn [negb].
  rewrite run_bind. cbn [RedisClient.probe]. rewrite run_bind. cbn [emit].
  rewrite Hw. apply Z.leb_le in Hn. rewrite Hn. reflexivity.
Qed.

(** Against a Redis keyspace, the first candidate key decides as soon as it
    is absent or holds a list: the answer is the length of that list, 0 when
    the key is absent, after a single [LLEN], whatever the keys
    [prefix:name:waiting] and [prefix:name] hold. *)
Theorem first_key_decides (db : gmap string redis_value) (w : World)
    (q : QueueConfig) (s : State) :
  redis_client s = true →
  llen_reply w = redis_llen db →
  match db !! (name_prefix q +:+ ":" +:+ name q +:+ ":wait") with
  | None =>
      value_of (RedisClient.get_queue_length w q s) = Ret 0
      ∧ llens (trace_of (RedisClient.get_queue_length w q s))
        = [(name_prefix q +:+ ":" +:+ name q +:+ ":wait")]
  | Some (RList items) =>
      value_of (RedisClient.get_queue_length w q s) = Ret (Z.of_nat (length items))
      ∧ llens (trace_of (RedisClient.get_queue_length w q s))
        = [(name_prefix q +:+ ":" +:+ name q +:+ ":wait")]
  | Some _ => True
  end.
Proof.
  intros Hc Hw.
  destruct (db !! (name_prefix q +:+ ":" +:+ name q +:+ ":wait"))
    as [[items | v | fields] |] eqn:Hk; try exact I.
  - rewrite (first_key_answers w q s (Z.of_nat (length items)));
      [split; reflexivity | exact Hc | | lia].
    rewrite Hw. unfold redis_llen. rewrite Hk. reflexivity.
  - rewrite (first_key_answers w q s 0);
      [split; reflexivity | exact Hc | | lia].
    rewrite Hw. unfold redis_llen. rewrite Hk. reflexivity.
Qed.

Lemma first_key_decides_witness :
  value_of (RedisClient.get_queue_length
              (Sample.healthy 1000 Sample.only_waiting) Sample.myapp_jobs
              (Sample.started 0 0)) = Ret 0
  ∧ llens (trace_of (RedisClient.get_queue_length
                       (Sample.healthy 1000 Sample.only_waiting)
                       Sample.myapp_jobs (Sample.started 0 0)))
    = ["myapp:jobs:wait"].
Proof.
  apply (first_key_decides Sample.only_waiting
           (Sample.healthy 1000 Sample.only_waiting) Sample.myapp_jobs
           (Sample.started 0 0)); reflexivity.
Defined.

Lemma get_queue_length_first_usable_witness :
  value_of (RedisClient.get_queue_length
              (Sample.healthy 1000
                 (<["myapp:jobs:wait" := RString "x"]> Sample.only_waiting))
              Sample.myapp_jobs (Sample.started 0 0))
  = Ret (default 0
           (head (omap (fun k =>
                          usable_length
                            (redis_llen
                               (<["myapp:jobs:wait" := RString "x"]>
                                  Sample.only_waiting) k))
                    [ "myapp:jobs:wait"; "myapp:jobs:waiting"; "myapp:jobs" ]))).
Proof.
  apply (get_queue_length_first_usable
           (Sample.healthy 1000
              (<["myapp:jobs:wait" := RString "x"]> Sample.only_waiting))
           Sample.myapp_jobs (Sample.started 0 0)); [reflexivity |].
  repeat (constructor; [vm_compute; discriminate |]). constructor.
Defined.

(** ** Session handling *)

(** [disconnect] always releases the handle, also when [close()] raises;
    only an interrupt of [close()] leaves it. A second [disconnect] does
    nothing, and afterwards [is_connected] answers [False] and
    [get_queue_length] answers 0 without any call to Redis. *)
Theorem disconnect_releases (close_reply : option exn) (s : State) :
  redis_client (state_of (RedisClient.disconnect close_reply s)) = false
  ∧ frame s (state_of (RedisClient.disconnect close_reply s))
  ∧ match value_of (RedisClient.disconnect close_reply s) with
    | Ret _ => True
    | Raise e => e = KeyboardInterrupt ∧ close_reply = Some KeyboardInterrupt
    end
  ∧ (∀ close_reply',
       RedisClient.disconnect close_reply'
         (state_of (RedisClient.disconnect close_reply s))
       = (Ret tt, state_of (RedisClient.disconnect close_reply s), []))
  ∧ (∀ w,
       RedisClient.is_connected w (state_of (RedisClient.disconnect close_reply s))
       = (Ret false, state_of (RedisClient.disconnect close_reply s), []))
  ∧ (∀ w q,
       RedisClient.get_queue_length w q
         (state_of (RedisClient.disconnect close_reply s))
       = (Ret 0, state_of (RedisClient.disconnect close_reply s),
          [EvLog ERROR "Redis client not connected"])).
Proof.
  unfold RedisClient.disconnect, RedisClient.is_connected,
    RedisClient.get_queue_length, try, raise.
  destruct (redis_client s) eqn:Hc; [destruct close_reply as [[] |] |];
    run; cbn [redis_client negb]; rewrite ?Hc; cbn [negb];
    repeat split; auto.
Qed.

(** [connect] installs a client object before it pings, so the handle is
    in place afterwards whether the ping succeeded or not. It returns
    [True] exactly when the ping succeeded and lets no [Exception] escape.
    After a failed [connect] the next [is_connected] therefore pings. *)
Theorem connect_installs_client (w : World) (s : State) :
  redis_client (state_of (RedisClient.connect w s)) = true
  ∧ frame s (state_of (RedisClient.connect w s))
  ∧ (value_of (RedisClient.connect w s) = Ret true ↔ connect_reply w = None)
  ∧ (∀ e, value_of (RedisClient.connect w s) = Raise e → e = KeyboardInterrupt)
  ∧ (∀ w', trace_of (RedisClient.is_connected w'
                       (state_of (RedisClient.connect w s))) = [EvPing]).
Proof.
  unfold RedisClient.connect, RedisClient.is_connected, raise.
  destruct (connect_reply w) as [[] |] eqn:Hr; run;
    cbn [is_ConnectionError is_Exception redis_client negb fst snd];
    (split; [reflexivity |]); (split; [repeat split |]);
    (split; [split; intros; congruence |]);
    (split; [intros e; try discriminate; intros [= <-]; reflexivity |]);
    (intros w'; destruct (ping_reply w') as [e' |];
     [destruct (is_ConnectionError e') | ..]; reflexivity).
Qed.

(** ** Replica count and actuation *)

(** [get_current_replicas] keeps the state and lets no [Exception] escape.
    Its answer is never negative and never more than the number of
    containers Docker listed; it is 0 without a client (Docker is then not
    asked) and 0 when the listing raises. *)
Theorem get_current_replicas_bounds (w : World) (s : State) :
  state_of (DockerManager.get_current_replicas w s) = s
  ∧ match value_of (DockerManager.get_current_replicas w s) with
    | Ret n =>
        0 ≤ n
        ∧ (∀ containers, containers_reply w = Ret containers →
             n ≤ Z.of_nat (length containers))
        ∧ (∀ e, containers_reply w = Raise e → n = 0)
        ∧ (docker_client s = false →
           n = 0
           ∧ external_calls (trace_of (DockerManager.get_current_replicas w s)) = [])
    | Raise e => e = KeyboardInterrupt
    end.
Proof.
  unfold DockerManager.get_current_replicas, raise.
  destruct (docker_client s) eqn:Hc;
    try (destruct (containers_reply w) as [containers | []] eqn:Hr);
    run; rewrite ?Hc, ?Hr; cbn [negb is_Exception fst snd];
    (split; [reflexivity |]); try reflexivity;
    repeat split; try lia; try discriminate; try congruence.
  intros containers' [= <-]. apply inj_le, length_filter.
Qed.

(** For a target that is not negative, [scale_service] runs [docker
    compose] exactly once, with the command built from the configuration
    and the target. It returns [True] exactly when the run returns (exit
    status 0, within the timeout), keeps the state, and lets no [Exception]
    escape. *)
Theorem scale_service_runs_once (config : DockerConfig) (w : World)
    (target_replicas : Z) (s : State) :
  0 ≤ target_replicas →
  subprocess_runs (trace_of (DockerManager.scale_service config w target_replicas s))
    = [DockerManager.command config target_replicas]
  ∧ state_of (DockerManager.scale_service config w target_replicas s) = s
  ∧ (value_of (DockerManager.scale_service config w target_replicas s) = Ret true
     ↔ ∃ r, run_reply w = Ret r)
  ∧ (∀ e, value_of (DockerManager.scale_service config w target_replicas s)
          = Raise e → e = KeyboardInterrupt).
Proof.
  intros Hpos. unfold DockerManager.scale_service, raise.
  apply Z.ltb_ge in Hpos. rewrite Hpos.
  destruct (run_reply w) as [r | []] eqn:Hr;
    try (destruct (nonempty (strip (stdout r))), (nonempty (strip (stderr r))));
    run; cbn [is_Exception fst snd];
    (split; [reflexivity |]); (split; [reflexivity |]);
    (split; [split; [intros; try discriminate; eauto | intros [r' Hr']; congruence] |]);
    intros e; try discriminate; intros [= <-]; reflexivity.
Qed.

Lemma scale_service_runs_once_witness :
  subprocess_runs
    (trace_of (DockerManager.scale_service (docker Sample.config)
                 (Sample.healthy 1000 Sample.six_waiting) 3 (Sample.started 0 0)))
    = [DockerManager.command (docker Sample.config) 3]
  ∧ state_of (DockerManager.scale_service (docker Sample.config)
                (Sample.healthy 1000 Sample.six_waiting) 3 (Sample.started 0 0))
    = Sample.started 0 0
  ∧ (value_of (DockerManager.scale_service (docker Sample.config)
                 (Sample.healthy 1000 Sample.six_waiting) 3 (Sample.started 0 0))
     = Ret true
     ↔ ∃ r, run_reply (Sample.healthy 1000 Sample.six_waiting) = Ret r)
  ∧ (∀ e, value_of (DockerManager.scale_service (docker Sample.config)
                      (Sample.healthy 1000 Sample.six_waiting) 3
                      (Sample.started 0 0))
          = Raise e → e = KeyboardInterrupt).
Proof.
  apply (scale_service_runs_once (docker Sample.config)
           (Sample.healthy 1000 Sample.six_waiting) 3 (Sample.started 0 0)).
  lia.
Defined.

(** ** More on the decision *)

(** Dead band: a queue length above the scale-down threshold and not above
    the scale-up threshold gives no decision, whatever the replica count. *)
Theorem dead_band (config : Config.t) (queue_length current_replicas : Z) :
  scale_down_threshold (scaling config) < queue_length →
  queue_length ≤ scale_up_threshold (scaling config) →
  DynamicScaler._make_scaling_decision config queue_length current_replicas = None.
Proof.
  intros Hd Hu. unfold DynamicScaler._make_scaling_decision.
  assert ((queue_length >? scale_up_threshold (scaling config)) = false) as ->
      by (rewrite Z.gtb_ltb; apply Z.ltb_ge; lia).
  assert ((queue_length <=? scale_down_threshold (scaling config)) = false) as ->
      by (apply Z.leb_gt; lia).
  reflexivity.
Qed.

Lemma dead_band_witness :
  DynamicScaler._make_scaling_decision Sample.config 3 3 = None.
Proof.
  apply (dead_band Sample.config 3 3);
    [vm_compute; reflexivity | vm_compute; discriminate].
Defined.

(** With [min_replicas <= max_replicas] and a current count within these
    bounds, every decision moves by exactly one replica and stays within
    the bounds. *)
Theorem decision_stays_in_range (config : Config.t)
    (queue_length current_replicas target : Z) (reason : string) :
  min_replicas (scaling config) ≤ current_replicas →
  current_replicas ≤ max_replicas (scaling config) →
  DynamicScaler._make_scaling_decision config queue_length current_replicas
    = Some (target, reason) →
  min_replicas (scaling config) ≤ target ≤ max_replicas (scaling config)
  ∧ (target = current_replicas + 1 ∨ target = current_replicas - 1).
Proof.
  intros Hmin Hmax. unfold DynamicScaler._make_scaling_decision.
  destruct ((queue_length >? scale_up_threshold (scaling config))
            && (current_replicas <? max_replicas (scaling config))) eqn:Hup;
    [| destruct ((queue_length <=? scale_down_threshold (scaling config))
                 && (current_replicas >? min_replicas (scaling config))) eqn:Hdown];
    Zbool; intros E; inversion E; subst; lia.
Qed.

Lemma decision_stays_in_range_witness :
  min_replicas (scaling Sample.config) ≤ 3 ≤ max_replicas (scaling Sample.config)
  ∧ (3 = 2 + 1 ∨ 3 = 2 - 1).
Proof.
  apply (decision_stays_in_range Sample.config 6 2 3 "Queue length 6 > threshold 5");
    [vm_compute; discriminate | vm_compute; discriminate | reflexivity].
Defined.

(** At or beyond a bound nothing pulls the count back by itself. With
    [max_replicas] or more replicas there is no decision unless the queue is
    at or below the scale-down threshold; with [min_replicas] or fewer
    (also 0, the count reported when Docker cannot be asked) there is no
    decision unless the queue is above the scale-up threshold. *)
Theorem no_decision_at_bounds (config : Config.t) (queue_length current_replicas : Z) :
  (max_replicas (scaling config) ≤ current_replicas →
   scale_down_threshold (scaling config) < queue_length →
   DynamicScaler._make_scaling_decision config queue_length current_replicas = None)
  ∧ (current_replicas ≤ min_replicas (scaling config) →
     queue_length ≤ scale_up_threshold (scaling config) →
     DynamicScaler._make_scaling_decision config queue_length current_replicas = None).
Proof.
  unfold DynamicScaler._make_scaling_decision. split; intros Hb Hq.
  - assert ((current_replicas <? max_replicas (scaling config)) = false) as ->
        by (apply Z.ltb_ge; lia).
    assert ((queue_length <=? scale_down_threshold (scaling config)) = false) as ->
        by (apply Z.leb_gt; lia).
    rewrite andb_false_r. reflexivity.
  - assert ((queue_length >? scale_up_threshold (scaling config)) = false) as ->
        by (rewrite Z.gtb_ltb; apply Z.ltb_ge; lia).
    assert ((current_replicas >? min_replicas (scaling config)) = false) as ->
        by (rewrite Z.gtb_ltb; apply Z.ltb_ge; lia).
    rewrite andb_false_r. reflexivity.
Qed.

Lemma no_decision_at_bounds_witness :
  DynamicScaler._make_scaling_decision Sample.config 20 5 = None
  ∧ DynamicScaler._make_scaling_decision Sample.config 0 0 = None.
Proof.
  split.
  - apply (proj1 (no_decision_at_bounds Sample.config 20 5));
      vm_compute; (reflexivity || discriminate).
  - apply (proj2 (no_decision_at_bounds Sample.config 0 0));
      vm_compute; (reflexivity || discriminate).
Defined.

(** From a count between [min_replicas] and [max_replicas]: under a
    constant backlog above both thresholds, successive successful
    actuations raise the count one by one up to [max_replicas] and then
    stop; under a queue at or below both thresholds they lower it one by one
    down to [min_replicas]. *)
Theorem steps_converge (config : Config.t) (queue_length current_replicas : Z)
    (k : nat) :
  min_replicas (scaling config) ≤ current_replicas →
  current_replicas ≤ max_replicas (scaling config) →
  (scale_up_threshold (scaling config) < queue_length →
   scale_down_threshold (scaling config) < queue_length →
   Nat.iter k (step_replicas config queue_length) current_replicas
   = Z.min (current_replicas + Z.of_nat k) (max_replicas (scaling config)))
  ∧ (queue_length ≤ scale_down_threshold (scaling config) →
     queue_length ≤ scale_up_threshold (scaling config) →
     Nat.iter k (step_replicas config queue_length) current_replicas
     = Z.max (current_replicas - Z.of_nat k) (min_replicas (scaling config))).
Proof.
  intros Hmin Hmax. split.
  - intros Hq Hd. induction k as [| k IH];
      [unfold Nat.iter; cbn [nat_rect]; change (Z.of_nat 0) with 0; lia |].
    rewrite Nat.iter_succ, IH.
    unfold step_replicas, DynamicScaler._make_scaling_decision.
    assert ((queue_length >? scale_up_threshold (scaling config)) = true) as ->
        by (rewrite Z.gtb_ltb; apply Z.ltb_lt; lia).
    cbn [andb].
    destruct (_ <? max_replicas (scaling config)) eqn:Hlt; Zbool.
    + lia.
    + assert ((queue_length <=? scale_down_threshold (scaling config)) = false)
        as -> by (apply Z.leb_gt; lia).
      cbn [andb]. lia.
  - intros Hq Hu. induction k as [| k IH];
      [unfold Nat.iter; cbn [nat_rect]; change (Z.of_nat 0) with 0; lia |].
    rewrite Nat.iter_succ, IH.
    unfold step_replicas, DynamicScaler._make_scaling_decision.
    assert ((queue_length >? scale_up_threshold (scaling config)) = false) as ->
        by (rewrite Z.gtb_ltb; apply Z.ltb_ge; lia).
    assert ((queue_length <=? scale_down_threshold (scaling config)) = true) as ->
        by (apply Z.leb_le; lia).
    cbn [andb].
    destruct (_ >? min_replicas (scaling config)) eqn:Hgt; Zbool; lia.
Qed.

(** Ten steps with 9 jobs waiting, from 2 workers: 5. Ten steps with the
    queue empty, from 4 workers: 1. *)
Lemma steps_converge_witness :
  Nat.iter 10 (step_replicas Sample.config 9) 2
  = Z.min (2 + Z.of_nat 10) (max_replicas (scaling Sample.config))
  ∧ Nat.iter 10 (step_replicas Sample.config 0) 4
    = Z.max (4 - Z.of_nat 10) (min_replicas (scaling Sample.config)).
Proof.
  split.
  - apply (proj1 (steps_converge Sample.config 9 2 10
                    ltac:(vm_compute; discriminate)
                    ltac:(vm_compute; discriminate)));
      vm_compute; reflexivity.
  - apply (proj2 (steps_converge Sample.config 0 4 10
                    ltac:(vm_compute; discriminate)
                    ltac:(vm_compute; discriminate)));
      vm_compute; discriminate.
Defined.

(** With [min_replicas] below [max_replicas], the thresholds the wrong way
    round ([scale_down_threshold] at or above [scale_up_threshold], which
    the validators accept) and a queue length above the one and not above
    the other, the count does not settle at [max_replicas]: there the
    decision is to scale down, and one replica lower it is to scale up
    again. *)
Theorem crossed_thresholds_oscillate (config : Config.t) (queue_length : Z) :
  scale_up_threshold (scaling config) < queue_length →
  queue_length ≤ scale_down_threshold (scaling config) →
  min_replicas (scaling config) < max_replicas (scaling config) →
  step_replicas config queue_length (max_replicas (scaling config))
    = max_replicas (scaling config) - 1
  ∧ step_replicas config queue_length (max_replicas (scaling config) - 1)
    = max_replicas (scaling config).
Proof.
  intros Hu Hd Hlt. unfold step_replicas, DynamicScaler._make_scaling_decision.
  assert ((queue_length >? scale_up_threshold (scaling config)) = true) as ->
      by (rewrite Z.gtb_ltb; apply Z.ltb_lt; lia).
  assert ((queue_length <=? scale_down_threshold (scaling config)) = true) as ->
      by (apply Z.leb_le; lia).
  rewrite Z.ltb_irrefl.
  assert ((max_replicas (scaling config) >? min_replicas (scaling config)) = true)
    as -> by (rewrite Z.gtb_ltb; apply Z.ltb_lt; lia).
  assert ((max_replicas (scaling config) - 1 <? max_replicas (scaling config)) = true)
    as -> by (apply Z.ltb_lt; lia).
  cbn [andb]. split; lia.
Qed.

Lemma crossed_thresholds_oscillate_witness :
  step_replicas
    {| queue := queue Sample.config;
       scaling := {| min_replicas := 1; max_replicas := 5;
                     scale_up_threshold := 5; scale_down_threshold := 10 |};
       docker := docker Sample.config;
       timing := timing Sample.config |} 8 5 = 5 - 1
  ∧ step_replicas
      {| queue := queue Sample.config;
         scaling := {| min_replicas := 1; max_replicas := 5;
                       scale_up_threshold := 5; scale_down_threshold := 10 |};
         docker := docker Sample.config;
         timing := timing Sample.config |} 8 (5 - 1) = 5.
Proof.
  apply (crossed_thresholds_oscillate
           {| queue := queue Sample.config;
              scaling := {| min_replicas := 1; max_replicas := 5;
                            scale_up_threshold := 5; scale_down_threshold := 10 |};
              docker := docker Sample.config;
              timing := timing Sample.config |} 8);
    [vm_compute; reflexivity | vm_compute; discriminate | vm_compute; reflexivity].
Defined.

(** ** More on backoff and the loop *)

(** The backoff never exceeds 60 seconds: below the limit the handler
    sleeps twice the count, capped at 60, and keeps the state; at the limit
    or above it does not sleep and clears [running]. *)
Theorem backoff_is_capped (n max_errors : Z) (s : State) :
  0 ≤ n →
  (max_errors ≤ n →
   sleeps (trace_of (DynamicScaler._handle_consecutive_errors n max_errors s)) = []
   ∧ running (state_of (DynamicScaler._handle_consecutive_errors n max_errors s))
     = false)
  ∧ (n < max_errors →
     state_of (DynamicScaler._handle_consecutive_errors n max_errors s) = s
     ∧ ∃ d, sleeps (trace_of (DynamicScaler._handle_consecutive_errors n max_errors s))
            = [d]
            ∧ 0 ≤ d ≤ 60 ∧ (n ≤ 30 → d = 2 * n) ∧ (30 ≤ n → d = 60)).
Proof.
  intros Hn. unfold DynamicScaler._handle_consecutive_errors.
  rewrite Z.geb_leb. split; intros Hm.
  - apply Z.leb_le in Hm. rewrite Hm. split; reflexivity.
  - apply Z.leb_gt in Hm. rewrite Hm. split; [reflexivity |].
    exists (Z.min (n * 2) 60). split; [reflexivity | lia].
Qed.

Lemma backoff_is_capped_witness :
  (100 ≤ 40 →
   sleeps (trace_of (DynamicScaler._handle_consecutive_errors 40 100
                       (Sample.started 0 40))) = []
   ∧ running (state_of (DynamicScaler._handle_consecutive_errors 40 100
                          (Sample.started 0 40))) = false)
  ∧ (40 < 100 →
     state_of (DynamicScaler._handle_consecutive_errors 40 100 (Sample.started 0 40))
       = Sample.started 0 40
     ∧ ∃ d, sleeps (trace_of (DynamicScaler._handle_consecutive_errors 40 100
                                (Sample.started 0 40))) = [d]
            ∧ 0 ≤ d ≤ 60 ∧ (40 ≤ 30 → d = 2 * 40) ∧ (30 ≤ 40 → d = 60)).
Proof. apply (backoff_is_capped 40 100 (Sample.started 0 40)). lia. Defined.

(** How [_shutdown] leaves the service when it returns. *)
Lemma finish_releases (close_reply : option exn) (s s' : State) (t : list event) :
  DynamicScaler.finish close_reply s = (DynamicScaler.Stopped, s', t) →
  running s' = false ∧ redis_client s' = false
  ∧ last t = Some (EvLog INFO "Dynamic Scaler stopped").
Proof.
  unfold DynamicScaler.finish, DynamicScaler._shutdown, RedisClient.disconnect,
    try, raise.
  destruct (redis_client s) eqn:Hc; [destruct close_reply as [[] |] |];
    run; cbn [redis_client running is_Exception]; rewrite ?Hc;
    cbn [is_Exception app]; intros E; inversion E; subst; repeat split.
Qed.



(** When the loop has ended in [Stopped], [running] is cleared, the Redis
    handle is released, and the last thing done was to log the stop. *)
Theorem stopped_means_released (config : Config.t) (ws : list World)
    (close_reply : option exn) (s s' : State) (t : list event) :
  DynamicScaler.while_running config ws close_reply s
    = (DynamicScaler.Stopped, s', t) →
  running s' = false ∧ redis_client s' = false
  ∧ last t = Some (EvLog INFO "Dynamic Scaler stopped").
Proof.
  revert s t.
  induction ws as [| w ws IH]; intros s t; cbn [DynamicScaler.while_running].
  - destruct (running s); [discriminate |]. apply finish_releases.
  - destruct (running s); [| apply finish_releases].
    destruct (DynamicScaler.cycle config w s) as [[[[] | e] s1] t1];
      [| | discriminate].
    + specialize (IH s1).
      destruct (DynamicScaler.while_running config ws close_reply s1)
        as [[o s2] t2].
      intros E. inversion E. subst. destruct (IH t2 eq_refl) as (? & ? & Hl).
      repeat split; try assumption.
      rewrite last_app, Hl. reflexivity.
    + destruct (DynamicScaler.finish close_reply s1) as [[o s2] t2] eqn:F.
      intros E. inversion E. subst.
      destruct (finish_releases _ _ _ _ F) as (? & ? & Hl).
      repeat split; try assumption.
      rewrite last_app, Hl. reflexivity.
Qed.

Lemma stopped_means_released_witness :
  running (snd (fst (DynamicScaler.while_running Sample.config
                       [Sample.redis_down 1000] None (Sample.started 0 4))))
    = false
  ∧ redis_client (snd (fst (DynamicScaler.while_running Sample.config
                              [Sample.redis_down 1000] None (Sample.started 0 4))))
    = false
  ∧ last (snd (DynamicScaler.while_running Sample.config
                 [Sample.redis_down 1000] None (Sample.started 0 4)))
    = Some (EvLog INFO "Dynamic Scaler stopped").
Proof.
  apply (stopped_means_released Sample.config [Sample.redis_down 1000] None
           (Sample.started 0 4)).
  vm_compute. reflexivity.
Defined.

(** A pass after which the loop goes on has slept exactly once: for
    [polling_interval], or for the backoff of the error it has counted.
    With a polling interval of at least one second the loop therefore
    never spins. *)
Theorem continuing_pass_sleeps_once (config : Config.t) (w : World) (s : State) :
  0 ≤ consecutive_errors s →
  1 ≤ polling_interval (timing config) →
  value_of (DynamicScaler.cycle config w s) = Ret DynamicScaler.Next →
  running (state_of (DynamicScaler.cycle config w s)) = true →
  ∃ d, sleeps (trace_of (DynamicScaler.cycle config w s)) = [d]
       ∧ 1 ≤ d
       ∧ (d = polling_interval (timing config)
          ∨ d = Z.min ((consecutive_errors s + 1) * 2) 60).
Proof.
  intros Hce Hpoll.
  destruct (cycle_shape config w s)
    as (fl & s1 & t1 & s' & t & E & K & _ & _ & Hrun & _ & Hs).
  rewrite E. cbn [value_of state_of trace_of fst snd]. rewrite Hrun, Hs.
  intros [= ->] Hgo. destruct (signal_received w); [discriminate |].
  inversion K; subst; try congruence;
    try (eexists; split; [eassumption | split; [lia | auto]]).
  eexists. split; [reflexivity | split; [lia | auto]].
Qed.

Lemma continuing_pass_sleeps_once_witness :
  ∃ d, sleeps (trace_of (DynamicScaler.cycle Sample.config (Sample.redis_down 1000)
                           (Sample.started 0 1))) = [d]
       ∧ 1 ≤ d
       ∧ (d = polling_interval (timing Sample.config)
          ∨ d = Z.min ((consecutive_errors (Sample.started 0 1) + 1) * 2) 60).
Proof.
  apply (continuing_pass_sleeps_once Sample.config (Sample.redis_down 1000)
           (Sample.started 0 1));
    [vm_compute; discriminate | vm_compute; discriminate
     | vm_compute; reflexivity | vm_compute; reflexivity].
Defined.

(** A termination signal that arrives during a pass lets the pass finish
    and then ends the loop: [_shutdown] runs right after the pass and no
    further world is consumed. *)
Theorem signal_stops_after_the_pass (config : Config.t) (w : World)
    (ws : list World) (close_reply : option exn) (s : State) :
  running s = true →
  signal_received w = true →
  running (state_of (DynamicScaler.cycle config w s)) = false
  ∧ DynamicScaler.while_running config (w :: ws) close_reply s
    = (match DynamicScaler.finish close_reply
               (state_of (DynamicScaler.cycle config w s)) with
       | (o, s2, t2) => (o, s2, trace_of (DynamicScaler.cycle config w s) ++ t2)
       end)
  ∧ last (trace_of (DynamicScaler.cycle config w s))
    = Some (EvLog INFO "Received shutdown signal").
Proof.
  intros Hrun Hsig.
  destruct (iteration_shape config w s) as (fl & s1 & t1 & E & _).
  cbn [DynamicScaler.while_running]. rewrite Hrun.
  unfold DynamicScaler.cycle, DynamicScaler._signal_handler.
  rewrite run_bind, E, Hsig. run.
  split; [reflexivity |]. split.
  - destruct fl; [| reflexivity].
    rewrite while_running_cleared by reflexivity. reflexivity.
  - rewrite app_nil_r, last_app. reflexivity.
Qed.

Lemma signal_stops_after_the_pass_witness :
  running (state_of (DynamicScaler.cycle Sample.config
                       {| time_now := 1000; ping_reply := None;
                          connect_reply := None;
                          llen_reply := redis_llen Sample.six_waiting;
                          containers_reply := Ret ["running"; "running"];
                          run_reply := Ret {| stdout := []; stderr := [] |};
                          signal_received := true |}
                       (Sample.started 0 0))) = false.
Proof.
  apply (signal_stops_after_the_pass Sample.config
           {| time_now := 1000; ping_reply := None; connect_reply := None;
              llen_reply := redis_llen Sample.six_waiting;
              containers_reply := Ret ["running"; "running"];
              run_reply := Ret {| stdout := []; stderr := [] |};
              signal_received := true |}
           [] None (Sample.started 0 0)); reflexivity.
Defined.

(** A pass within the cooldown, as an equation. *)
Lemma iteration_in_cooldown (config : Config.t) (w : World) (s : State) :
  time_now w - last_scale_time s < cooldown_period (timing config) →
  DynamicScaler.iteration config w s
    = (Ret DynamicScaler.Next, s,
       [EvLog DEBUG "In cooldown period";
        EvSleep (polling_interval (timing config))]).
Proof.
  intros Hcd. unfold DynamicScaler.iteration, DynamicScaler.loop_body. cbv zeta.
  rewrite run_bind. unfold try. rewrite run_bind. cbn [get].
  apply Z.ltb_lt in Hcd. rewrite Hcd. reflexivity.
Qed.

(** After a pass with a successful actuation, every pass that starts less
    than [cooldown_period] later only logs the cooldown and sleeps: two
    successful actuations are at least [cooldown_period] apart. *)
Theorem cooldown_follows_success (config : Config.t) (w w' : World) (s : State) :
  scaling_completed ∈ trace_of (DynamicScaler.cycle config w s) →
  time_now w' - time_now w < cooldown_period (timing config) →
  DynamicScaler.iteration config w' (state_of (DynamicScaler.cycle config w s))
    = (Ret DynamicScaler.Next, state_of (DynamicScaler.cycle config w s),
       [EvLog DEBUG "In cooldown period";
        EvSleep (polling_interval (timing config))]).
Proof.
  intros Hin Hsoon. apply iteration_in_cooldown.
  destruct (cycle_verdict config w s) as (fl & s' & t & E & H).
  rewrite E in *. cbn [trace_of state_of fst snd] in *.
  apply verdict_elem in Hin; [| rewrite !elem_of_cons; auto].
  destruct H as [(_ & _ & ->) | [(Hv & _) | [(Hv & _) | (Hv & _)]]];
    [exact Hsoon | ..]; rewrite Hv in Hin; elems Hin.
Qed.

Lemma cooldown_follows_success_witness :
  DynamicScaler.iteration Sample.config (Sample.healthy 1030 Sample.six_waiting)
    (state_of (DynamicScaler.cycle Sample.config
                 (Sample.healthy 1000 Sample.six_waiting) (Sample.started 0 0)))
  = (Ret DynamicScaler.Next,
     state_of (DynamicScaler.cycle Sample.config
                 (Sample.healthy 1000 Sample.six_waiting) (Sample.started 0 0)),
     [EvLog DEBUG "In cooldown period";
      EvSleep (polling_interval (timing Sample.config))]).
Proof.
  apply (cooldown_follows_success Sample.config
           (Sample.healthy 1000 Sample.six_waiting)
           (Sample.healthy 1030 Sample.six_waiting) (Sample.started 0 0)).
  - apply verdict_elem; [rewrite !elem_of_cons; auto |].
    vm_compute. apply list_elem_of_singleton. reflexivity.
  - vm_compute. reflexivity.
Defined.

(** ** One command per pass *)


Lemma subprocess_runs_external (t : list event) :
  subprocess_runs (external_calls t) = subprocess_runs t.
Proof.
  unfold subprocess_runs, external_calls.
  induction t as [| ev t IH]; [reflexivity |].
  rewrite filter_cons.
  destruct ev; cbn [is_external_call]; destruct (decide _) as [H | H];
    try discriminate H; try (exfalso; apply H; reflexivity);
    cbn; rewrite ?IH; reflexivity.
Qed.

Lemma subprocess_runs_llens (keys : list string) :
  subprocess_runs (EvLlen <$> keys) = [].
Proof. induction keys as [| k keys IH]; [reflexivity | exact IH]. Qed.

(** What the loop learns from Redis: a length that is not negative, with
    no subprocess run on the way and the state as it was. *)
Lemma get_queue_length_post (w : World) (q : QueueConfig) (s : State) :
  post (RedisClient.get_queue_length w q s)
    (fun r s' t =>
       s' = s
       ∧ subprocess_runs t = []
       ∧ match r with Ret n => 0 ≤ n | Raise _ => True end).
Proof.
  unfold RedisClient.get_queue_length. apply post_get.
  destruct (redis_client s); cbn [negb];
    [| run; split; [reflexivity | split; [reflexivity | lia]]].
  apply post_bind. eapply post_conseq; [apply probe_careful |].
  intros r s' t (-> & Hr & _ & Hx).
  assert (subprocess_runs t = []) as Ht
      by (rewrite <- subprocess_runs_external, Hx; apply subprocess_runs_llens).
  destruct r as [[n |] | e]; run;
    rewrite ?subprocess_runs_app, ?Ht; split; try reflexivity;
    split; try reflexivity; try lia; exact I.
Qed.

(** What the loop learns from Docker: a count that is not negative, with
    no subprocess run on the way and the state as it was. *)
Lemma get_current_replicas_post (w : World) (s : State) :
  post (DockerManager.get_current_replicas w s)
    (fun r s' t =>
       s' = s
       ∧ subprocess_runs t = []
       ∧ match r with Ret n => 0 ≤ n | Raise _ => True end).
Proof.
  unfold DockerManager.get_current_replicas, raise. apply post_get.
  destruct (docker_client s);
    try (destruct (containers_reply w) as [containers | []]);
    run; cbn [negb is_Exception fst snd]; split; try reflexivity;
    split; try reflexivity; try lia; exact I.
Qed.

(** [scale_service] runs the command for its target once, or nothing. *)
Lemma scale_service_post (config : DockerConfig) (w : World) (target : Z) (s : State) :
  post (DockerManager.scale_service config w target s)
    (fun _ _ t =>
       subprocess_runs t = []
       ∨ (0 ≤ target ∧ subprocess_runs t = [DockerManager.command config target])).
Proof.
  unfold DockerManager.scale_service, raise.
  destruct (target <? 0) eqn:Hneg; [run; left; reflexivity |].
  apply Z.ltb_ge in Hneg.
  destruct (run_reply w) as [r | []];
    try (destruct (nonempty (strip (stdout r))), (nonempty (strip (stderr r))));
    run; cbn [is_Exception fst snd]; right; split; try assumption; reflexivity.
Qed.

(** Walking through a step that runs no subprocess, for a property of
    traces that such steps in front do not disturb. *)
Lemma post_bind_noruns {A B : Type} (m : M A) (k : A → M B) (s : State)
    (V : A → State → Prop) (P : list event → Prop) :
  (∀ pre t, subprocess_runs pre = [] → P t → P (pre ++ t)) →
  (∀ t, subprocess_runs t = [] → P t) →
  post (m s) (fun r s1 t =>
                subprocess_runs t = []
                ∧ match r with Ret a => V a s1 | Raise _ => True end) →
  (∀ a s1, V a s1 → post (k a s1) (fun _ _ t2 => P t2)) →
  post ((m ≫= k) s) (fun _ _ t => P t).
Proof.
  intros Hpre Hnil Hm Hk. apply post_bind. eapply post_conseq; [exact Hm |].
  intros [a | e] s1 t1 [Ht Hv].
  - eapply post_conseq; [apply (Hk a s1 Hv) |].
    intros r2 s2 t2 H. apply Hpre; assumption.
  - apply Hnil. exact Ht.
Qed.

(** [is_connected] keeps the state and says yes only with a client. *)
Lemma is_connected_post (w : World) (s : State) :
  post (RedisClient.is_connected w s)
    (fun r s' t =>
       subprocess_runs t = []
       ∧ match r with
         | Ret connected => s' = s ∧ (connected = true → redis_client s = true)
         | Raise _ => True
         end).
Proof.
  unfold RedisClient.is_connected, raise. apply post_get.
  destruct (redis_client s); cbn [negb];
    try (destruct (ping_reply w) as [e |]; [destruct (is_ConnectionError e) |]);
    run; split; try reflexivity; try exact I; split; try reflexivity;
    try discriminate.
Qed.

(** [connect] leaves the client assigned, whatever the ping says. *)
Lemma connect_post (w : World) (s : State) :
  post (RedisClient.connect w s)
    (fun r s' t =>
       subprocess_runs t = []
       ∧ match r with Ret _ => s' = measuring_state s | Raise _ => True end).
Proof.
  unfold RedisClient.connect, raise.
  destruct (connect_reply w) as [[] |]; run; cbn [is_ConnectionError is_Exception];
    split; try reflexivity; exact I.
Qed.

Lemma measuring_state_client (s : State) :
  redis_client s = true → measuring_state s = s.
Proof. destruct s. cbn. intros ->. reflexivity. Qed.

(** The trace of a pass is that of the body of its [try], followed by
    events that run no subprocess. *)
Lemma cycle_trace_of_body (config : Config.t) (w : World) (s : State) :
  ∃ rest, trace_of (DynamicScaler.cycle config w s)
          = trace_of (DynamicScaler.loop_body config w s) ++ rest
          ∧ subprocess_runs rest = [].
Proof.
  unfold DynamicScaler.cycle, DynamicScaler.iteration,
    DynamicScaler._handle_consecutive_errors, DynamicScaler._signal_handler, try.
  rewrite !run_bind.
  destruct (DynamicScaler.loop_body config w s) as [[[[] | e] s1] t1].
  - destruct (signal_received w); run; rewrite ?app_nil_r, <- ?app_assoc;
      first [ solve [eexists; split; reflexivity]
            | solve [exists []; rewrite ?app_nil_r; split; reflexivity] ].
  - destruct e; run;
      try destruct (consecutive_errors s1 + 1 >=? DynamicScaler.max_consecutive_errors);
      destruct (signal_received w); run; rewrite ?app_nil_r, <- ?app_assoc;
      first [ solve [eexists; split; reflexivity]
            | solve [exists []; rewrite ?app_nil_r; split; reflexivity] ].
Qed.

(** A pass runs at most one subprocess. If it runs one, the pass has
    called [get_queue_length] and then [get_current_replicas] before it,
    in the state with the client in place; both returned, with a length
    and a count that are not negative; and the command is the scale
    command for the target of the decision taken on that length and that
    count. *)
Theorem one_command_per_pass (config : Config.t) (w : World) (s : State) :
  subprocess_runs (trace_of (DynamicScaler.cycle config w s)) = []
  ∨ ∃ queue_length current_replicas target reason before after,
      value_of (RedisClient.get_queue_length w (queue config) (measuring_state s))
      = Ret queue_length
      ∧ value_of (DockerManager.get_current_replicas w (measuring_state s))
        = Ret current_replicas
      ∧ trace_of (DynamicScaler.cycle config w s)
        = before
          ++ trace_of (RedisClient.get_queue_length w (queue config)
                         (measuring_state s))
          ++ trace_of (DockerManager.get_current_replicas w (measuring_state s))
          ++ after
      ∧ subprocess_runs before = []
      ∧ subprocess_runs after = [DockerManager.command (docker config) target]
      ∧ 0 ≤ queue_length ∧ 0 ≤ current_replicas ∧ 0 ≤ target
      ∧ DynamicScaler._make_scaling_decision config queue_length current_replicas
        = Some (target, reason)
      ∧ subprocess_runs (trace_of (DynamicScaler.cycle config w s))
        = [DockerManager.command (docker config) target].
Proof.
  destruct (cycle_trace_of_body config w s) as (rest & Hc & Hrest). rewrite Hc.
  set (sm := measuring_state s).
  set (tq := trace_of (RedisClient.get_queue_length w (queue config) sm)).
  set (tc := trace_of (DockerManager.get_current_replicas w sm)).
  pose (P := fun t : list event =>
          subprocess_runs t = []
          ∨ ∃ queue_length current_replicas target reason before after,
              value_of (RedisClient.get_queue_length w (queue config) sm)
              = Ret queue_length
              ∧ value_of (DockerManager.get_current_replicas w sm)
                = Ret current_replicas
              ∧ t = before ++ tq ++ tc ++ after
              ∧ subprocess_runs before = []
              ∧ subprocess_runs after = [DockerManager.command (docker config) target]
              ∧ 0 ≤ queue_length ∧ 0 ≤ current_replicas ∧ 0 ≤ target
              ∧ DynamicScaler._make_scaling_decision config queue_length
                  current_replicas = Some (target, reason)
              ∧ subprocess_runs t = [DockerManager.command (docker config) target]).
  enough (P (trace_of (DynamicScaler.loop_body config w s))) as HP.
  { destruct HP as [H | (q & cur & target & reason & before & after
                         & Hq & Hcur & Ht & Hb & Ha & Hq0 & Hc0 & Ht0 & Hd & Hr)].
    - left. rewrite subprocess_runs_app, H, Hrest. reflexivity.
    - right. exists q, cur, target, reason, before, (after ++ rest).
      rewrite !subprocess_runs_app, Ha, Hr, Hrest, Ht, <- !app_assoc.
      repeat split; assumption || reflexivity. }
  assert (∀ pre t, subprocess_runs pre = [] → P t → P (pre ++ t)) as Hpre.
  { intros pre t Hp [H | (q & cur & target & reason & before & after
                          & Hq & Hcur & Ht & Hb & Ha & Hq0 & Hc0 & Ht0 & Hd & Hr)].
    - left. rewrite subprocess_runs_app, Hp, H. reflexivity.
    - right. exists q, cur, target, reason, (pre ++ before), after.
      rewrite !subprocess_runs_app, Hp, Hb, Hr, Ht, <- !app_assoc.
      repeat split; assumption || reflexivity. }
  assert (∀ t, subprocess_runs t = [] → P t) as Hnil by (intros t H; left; exact H).
  change (post (DynamicScaler.loop_body config w s) (fun _ _ t => P t)).
  unfold DynamicScaler.loop_body. cbv zeta. apply post_get.
  destruct (_ <? _); [apply Hnil; reflexivity |].
  apply (post_bind_noruns _ _ _
           (fun connected s1 => s1 = s ∧ (connected = true → redis_client s = true))
           P Hpre Hnil (is_connected_post w s)).
  intros connected s1 [-> Hconn].
  apply (post_bind_noruns _ _ _
           (fun reconnected s2 => reconnected = true → s2 = sm) P Hpre Hnil).
  { destruct connected.
    - run. split; [reflexivity |]. intros _. symmetry.
      apply measuring_state_client, Hconn. reflexivity.
    - apply post_emit. eapply post_conseq; [apply connect_post |].
      intros r s' t [Ht Hv]. split; [exact Ht |].
      destruct r; [intros _; exact Hv | exact I]. }
  intros [] s2 Hs2; cbn [negb].
  - rewrite (Hs2 eq_refl). clear s2 Hs2.
    apply post_bind. red. cbv beta.
    destruct (get_queue_length_post w (queue config) sm) as (Hsq & Hrq & Hvq).
    fold tq in Hrq |- *. rewrite Hsq.
    destruct (value_of (RedisClient.get_queue_length w (queue config) sm))
      as [queue_length | e] eqn:Hq; [| apply Hnil; exact Hrq].
    apply post_bind. red. cbv beta.
    destruct (get_current_replicas_post w sm) as (Hsc & Hrc & Hvc).
    fold tc in Hrc |- *. rewrite Hsc.
    destruct (value_of (DockerManager.get_current_replicas w sm))
      as [current_replicas | e] eqn:Hcur;
      [| apply Hnil; rewrite subprocess_runs_app, Hrq, Hrc; reflexivity].
    assert (∀ after,
              subprocess_runs after = [] → P (tq ++ tc ++ after)) as Hquiet.
    { intros after Ha. apply Hnil.
      rewrite !subprocess_runs_app, Hrq, Hrc, Ha. reflexivity. }
    apply post_emit.
    destruct (DynamicScaler._make_scaling_decision config queue_length
                current_replicas) as [[target reason] |] eqn:Hd;
      [| run; apply Hquiet; reflexivity].
    assert (∀ after,
              subprocess_runs after = [DockerManager.command (docker config) target] →
              0 ≤ target → P (tq ++ tc ++ after)) as Hran.
    { intros after Ha Ht0. right.
      exists queue_length, current_replicas, target, reason, [], after.
      rewrite !subprocess_runs_app, Hrq, Hrc, Ha.
      repeat split; assumption || reflexivity. }
    apply post_bind. unfold DynamicScaler._execute_scaling.
    apply post_bind. apply post_emit. apply post_bind.
    eapply post_conseq; [apply scale_service_post |].
    intros r s5 t5 Hruns.
    assert (∀ after, subprocess_runs after = subprocess_runs t5 →
                     P (tq ++ tc ++ after)) as Hfin.
    { intros after Ha. destruct Hruns as [H5 | [Hpos H5]].
      - apply Hquiet. rewrite Ha, H5. reflexivity.
      - apply Hran; [| exact Hpos]. rewrite Ha, H5. reflexivity. }
    destruct r as [[] | e]; run; apply Hfin;
      rewrite ?subprocess_runs_app;
      repeat match goal with
             | |- context [subprocess_runs [?ev]] =>
                 change (subprocess_runs [ev]) with (@nil (list string))
             | |- context [subprocess_runs []] =>
                 change (subprocess_runs []) with (@nil (list string))
             end;
      rewrite ?app_nil_r; reflexivity.
  - apply post_get. apply post_modify.
    unfold DynamicScaler._handle_consecutive_errors.
    destruct (_ >=? _); run; apply Hnil; reflexivity.
Qed.

(** With six jobs waiting and two workers running, the one command of the
    pass is the scale command for three workers. *)
Lemma one_command_per_pass_witness :
  subprocess_runs
    (trace_of (DynamicScaler.cycle Sample.config
                 (Sample.healthy 1000 Sample.six_waiting) (Sample.started 0 0)))
  = [DockerManager.command (docker Sample.config) 3].
Proof.
  destruct (one_command_per_pass Sample.config
              (Sample.healthy 1000 Sample.six_waiting) (Sample.started 0 0))
    as [H | (q & cur & target & reason & before & after
             & Hq & Hcur & _ & _ & _ & _ & _ & _ & Hd & Hr)].
  - vm_compute in H. discriminate H.
  - vm_compute in Hq. vm_compute in Hcur.
    injection Hq as <-. injection Hcur as <-.
    vm_compute in Hd. injection Hd as <- _. exact Hr.
Defined.

(** ** Configuration *)

(** [ScalingConfig] is built exactly from values with
    [1 <= min_replicas <= max_replicas] and thresholds that are not
    negative, and it stores them unchanged. Nothing relates the two
    thresholds to each other. *)
Theorem ScalingConfig_init_accepts (mn mx up down : Z) (c : ScalingConfig) :
  Validators.ScalingConfig_init mn mx up down = inr c ↔
  c = {| min_replicas := mn; max_replicas := mx;
         scale_up_threshold := up; scale_down_threshold := down |}
  ∧ 1 ≤ mn ∧ mn ≤ mx ∧ 0 ≤ up ∧ 0 ≤ down.
Proof.
  unfold Validators.ScalingConfig_init, Validators.min_replicas_valid,
    Validators.max_replicas_valid, Validators.scale_up_threshold_valid,
    Validators.scale_down_threshold_valid, Validators.run_validator.
  cbv zeta.
  destruct (mn <? 1) eqn:H1; cbn [fst snd]; simplify_map_eq;
    [| destruct (mx <? mn) eqn:H2; cbn [fst snd]; simplify_map_eq];
    destruct (up <? 0) eqn:H3; cbn [fst snd app]; simplify_map_eq;
    destruct (down <? 0) eqn:H4; cbn [fst snd app]; simplify_map_eq;
    Zbool; (split; [try discriminate | intros (-> & ? & ? & ? & ?); try lia]).
  - intros [= <-]. repeat split; lia.
  - reflexivity.
Qed.

(** When [min_replicas] fails its validator it is not among the validated
    values, so [max_replicas] is not compared with it: the error report
    names [min_replicas] and never [max_replicas]. *)
Theorem max_replicas_unchecked_when_min_fails (mn mx up down : Z) :
  mn < 1 →
  ∃ errors,
    Validators.ScalingConfig_init mn mx up down = inl errors
    ∧ head errors = Some ("min_replicas", "Minimum replicas must be at least 1")
    ∧ ∀ msg, ("max_replicas", msg) ∉ errors.
Proof.
  intros Hmn. apply Z.ltb_lt in Hmn.
  unfold Validators.ScalingConfig_init, Validators.min_replicas_valid,
    Validators.max_replicas_valid, Validators.scale_up_threshold_valid,
    Validators.scale_down_threshold_valid, Validators.run_validator.
  cbv zeta. rewrite Hmn. cbn [fst snd]. simplify_map_eq.
  destruct (up <? 0); cbn [fst snd app]; simplify_map_eq;
    destruct (down <? 0); cbn [fst snd app]; simplify_map_eq;
    eexists; (split; [reflexivity |]); (split; [reflexivity |]);
    intros msg Hin; elems Hin.
Qed.

Lemma max_replicas_unchecked_when_min_fails_witness :
  ∃ errors,
    Validators.ScalingConfig_init 0 (-3) 5 0 = inl errors
    ∧ head errors = Some ("min_replicas", "Minimum replicas must be at least 1")
    ∧ ∀ msg, ("max_replicas", msg) ∉ errors.
Proof. apply (max_replicas_unchecked_when_min_fails 0 (-3) 5 0). lia. Defined.

(** Stripping, step by step. *)
Lemma lstrip_split (s : text) : ∃ p, s = p ++ lstrip s.
Proof.
  induction s as [| c s [p IH]]; [exists []; reflexivity |].
  cbn [lstrip]. destruct (isspace c); [| exists []; reflexivity].
  exists (c :: p). cbn [app]. rewrite <- IH. reflexivity.
Qed.

Lemma lstrip_length (s : text) : (length (lstrip s) ≤ length s)%nat.
Proof.
  induction s as [| c s IH]; cbn [lstrip length]; [lia |].
  destruct (isspace c); cbn [length]; lia.
Qed.

Lemma lstrip_idempotent (s : text) : lstrip (lstrip s) = lstrip s.
Proof.
  induction s as [| c s IH]; cbn [lstrip]; [reflexivity |].
  destruct (isspace c) eqn:Hc; [exact IH |]. cbn [lstrip]. rewrite Hc. reflexivity.
Qed.

Lemma lstrip_fixed_head (c : N) (x : text) :
  lstrip (c :: x) = c :: x → isspace c = false.
Proof.
  cbn [lstrip]. destruct (isspace c); [| reflexivity].
  intros H. pose proof (lstrip_length x) as Hl. rewrite H in Hl.
  cbn [length] in Hl. lia.
Qed.

(** Stripping on the right keeps a clean left end. *)
Lemma lstrip_after_rstrip (a : text) :
  lstrip a = a → lstrip (rev (lstrip (rev a))) = rev (lstrip (rev a)).
Proof.
  intros Ha. destruct (lstrip_split (rev a)) as [p Hp].
  apply (f_equal (@rev N)) in Hp. rewrite rev_involutive, rev_app_distr in Hp.
  destruct (rev (lstrip (rev a))) as [| c r]; [reflexivity |].
  cbn [app] in Hp. rewrite Hp in Ha. apply lstrip_fixed_head in Ha.
  cbn [lstrip]. rewrite Ha. reflexivity.
Qed.

Lemma last_head_rev (s : text) : last s = head (rev s).
Proof.
  induction s as [| c s _] using rev_ind; [reflexivity |].
  rewrite last_snoc, rev_unit. reflexivity.
Qed.

(** A project name that passes [project_name_required] is stored as
    [v.strip()]: it is not empty, has no white space at either end, and
    passes the validator again unchanged. A name that is empty or all
    white space is refused. White space is what [str.isspace] says, on
    all of Unicode. *)
Theorem project_name_comes_out_stripped (v : text) :
  (∀ v', Validators.project_name_required v = inr v' →
     v' = strip v
     ∧ v' ≠ []
     ∧ (∀ c, head v' = Some c → isspace c = false)
     ∧ (∀ c, last v' = Some c → isspace c = false)
     ∧ Validators.project_name_required v' = inr v')
  ∧ (Forall (fun c => isspace c = true) v →
     Validators.project_name_required v = inl "Project name is required").
Proof.
  unfold Validators.project_name_required. split.
  - intros v'. destruct (negb (nonempty v) || negb (nonempty (strip v))) eqn:Hok;
      [discriminate |].
    intros E. inversion E as [E']. clear E.
    apply orb_false_iff in Hok as [_ Hs].
    apply negb_false_iff in Hs.
    assert (lstrip (strip v) = strip v) as Hl
        by (apply lstrip_after_rstrip, lstrip_idempotent).
    assert (lstrip (rev (strip v)) = rev (strip v)) as Hr.
    { unfold strip. rewrite rev_involutive. apply lstrip_idempotent. }
    assert (strip (strip v) = strip v) as Hss.
    { unfold strip at 1. rewrite Hl, Hr. apply rev_involutive. }
    split; [reflexivity |].
    split; [intros E; rewrite E in Hs; discriminate |].
    split; [| split].
    + intros c Hc. destruct (strip v) as [| c' r]; [discriminate |].
      injection Hc as ->. apply (lstrip_fixed_head c r Hl).
    + intros c Hc. rewrite last_head_rev in Hc.
      destruct (rev (strip v)) as [| c' r]; [discriminate |].
      injection Hc as ->. apply (lstrip_fixed_head c r Hr).
    + rewrite Hss, Hs. reflexivity.
  - intros Hall.
    assert (lstrip v = []) as He.
    { induction Hall as [| c v0 Hc _ IH]; [reflexivity |].
      cbn [lstrip]. rewrite Hc. exact IH. }
    unfold strip. rewrite He. cbn [rev lstrip nonempty negb].
    rewrite orb_true_r. reflexivity.
Qed.

(** "  n8n" followed by a no-break space (U+00A0) and a space comes out
    as "n8n"; a name made of a space, a no-break space and an em space
    (U+2003) is refused. *)
Lemma project_name_comes_out_stripped_witness :
  Validators.project_name_required [32; 32; 110; 56; 110; 160; 32]%N
    = inr [110; 56; 110]%N
  ∧ Validators.project_name_required [32; 160; 8195]%N
    = inl "Project name is required".
Proof.
  split.
  - reflexivity.
  - apply (proj2 (project_name_comes_out_stripped [32; 160; 8195]%N)).
    repeat constructor.
Defined.

(** ** Start-up *)

Lemma brun_bind {A C : Type} (m : B A) (k : A → B C) (s : State) :
  (m ≫= k) s
  = match m s with
    | (Ret a, s1, t1) =>
        match k a s1 with
        | (r, s2, t2) => (r, s2, t1 ++ t2)
        end
    | (Raise e, s1, t1) => (Raise e, s1, t1)
    end.
Proof. reflexivity. Qed.

Lemma not_Exception (e : exn) : is_Exception e = false → e = KeyboardInterrupt.
Proof. destruct e; (reflexivity || discriminate). Qed.

(** Runs a start-up computation made of state updates and events only. *)
Ltac brun :=
  cbv [mbind B_bind mret B_ret bemit blog braise set_docker_client lift
       M_bind M_ret emit log raise try get modify set_redis_client set_running
       fmap list_fmap fst snd];
  cbn [app].

(** Closes the routine goals about the outcome of a start-up step. *)
Ltac boot_finish :=
  unfold setup_ok, services_ok in *;
  repeat split; intros;
  repeat match goal with
         | H : _ ∧ _ |- _ => destruct H
         end;
  try discriminate; try congruence; try tauto;
  try (match goal with H : _ ∈ _ |- _ => solve [elems H] end);
  try (rewrite ?elem_of_cons; solve [auto 6]);
  try solve [frames].

(** [validate_setup] in full. *)
Lemma validate_setup_cases (config : DockerConfig) (b : Boot) (s : State) :
  ∃ r t,
    DockerSetup.validate_setup config b s = (r, s, t)
    ∧ (r = Ret true ↔
       project_name config ≠ "" ∧ path_exists b = true ∧ config_run_reply b = Ret 0)
    ∧ (∀ e, r = Raise e → e = KeyboardInterrupt ∧ config_run_reply b = Raise e)
    ∧ (InLoop (EvSubprocessRun (DockerSetup.config_command config)) ∈ t ↔
       project_name config ≠ "" ∧ path_exists b = true)
    ∧ (EvPathExists (compose_file config) ∈ t ↔ project_name config ≠ "")
    ∧ connection_attempts t = [].
Proof.
  unfold DockerSetup.validate_setup.
  destruct (project_name config) as [| c name] eqn:Hn; cbn [truthy negb].
  { brun. do 2 eexists. split; [reflexivity |]. boot_finish. }
  destruct (path_exists b) eqn:Hp; cbn [negb].
  2: { brun. do 2 eexists. split; [reflexivity |]. boot_finish. }
  destruct (config_run_reply b) as [z | e] eqn:Hr.
  - destruct (z =? 0) eqn:Hz; cbn [negb]; brun; do 2 eexists;
      (split; [reflexivity |]);
      [apply Z.eqb_eq in Hz; subst z | apply Z.eqb_neq in Hz]; boot_finish.
  - destruct (is_Exception e) eqn:He; brun; do 2 eexists; (split; [reflexivity |]).
    + boot_finish.
    + apply not_Exception in He. subst e. boot_finish.
Qed.

(** [DockerManager.connect] in full. *)
Lemma docker_connect_cases (b : Boot) (s : State) :
  ∃ r s' t,
    DockerSetup.connect b s = (r, s', t)
    ∧ (r = Ret true ↔ from_env_reply b = None ∧ docker_ping_reply b = None)
    ∧ (r = Ret true → docker_client s' = true)
    ∧ (∀ e, r = Raise e → e = KeyboardInterrupt)
    ∧ frame s s' ∧ redis_client s' = redis_client s
    ∧ docker_client s' = match from_env_reply b with
                         | None => true
                         | Some _ => docker_client s
                         end
    ∧ (EvDockerPing ∈ t ↔ from_env_reply b = None)
    ∧ (∀ ev, InLoop ev ∈ t → ∃ lvl msg, ev = EvLog lvl msg).
Proof.
  unfold DockerSetup.connect, DockerSetup.connect_failed.
  destruct (from_env_reply b) as [e |];
    [| destruct (docker_ping_reply b) as [e |]];
    try (destruct (is_DockerException e) eqn:Hd;
         [| destruct (is_Exception e) eqn:He;
            [| apply not_Exception in He; subst e]]);
    brun; do 3 eexists; (split; [reflexivity |]);
    boot_finish;
    match goal with
    | H : InLoop _ ∈ _ |- _ =>
        repeat (apply elem_of_cons in H as [H | H];
                [first [discriminate H | injection H as ->; eauto] |]);
        apply elem_of_nil in H; destruct H
    end.
Qed.

(** [DockerManager.connect] returns [True] exactly when the daemon is found
    and answers the ping. The client handle is installed as soon as
    [docker.from_env()] returns, also when the ping then fails, and the
    ping is only sent in that case. No [Exception] escapes, and the Redis
    handle and the loop's places are not touched. *)
Theorem docker_connect_outcome (b : Boot) (s : State) :
  (fst (fst (DockerSetup.connect b s)) = Ret true
   ↔ from_env_reply b = None ∧ docker_ping_reply b = None)
  ∧ docker_client (snd (fst (DockerSetup.connect b s)))
    = match from_env_reply b with
      | None => true
      | Some _ => docker_client s
      end
  ∧ (EvDockerPing ∈ snd (DockerSetup.connect b s) ↔ from_env_reply b = None)
  ∧ (∀ e, fst (fst (DockerSetup.connect b s)) = Raise e → e = KeyboardInterrupt)
  ∧ frame s (snd (fst (DockerSetup.connect b s)))
  ∧ redis_client (snd (fst (DockerSetup.connect b s))) = redis_client s.
Proof.
  destruct (docker_connect_cases b s)
    as (r & s' & t & -> & Htrue & _ & Hraise & Hframe & Hredis & Hdocker & Hping & _).
  cbn [fst snd]. repeat split; try tauto; try assumption; apply Hframe.
Qed.

(** The preflight returns [True] exactly when there is a project name,
    the compose file exists and [docker compose config] exits with status
    0. Without a project name it touches nothing; without the compose file
    it runs no subprocess. It keeps the state, connects to nothing, and
    lets no [Exception] escape. *)
Theorem validate_setup_outcome (config : DockerConfig) (b : Boot) (s : State) :
  snd (fst (DockerSetup.validate_setup config b s)) = s
  ∧ (fst (fst (DockerSetup.validate_setup config b s)) = Ret true
     ↔ project_name config ≠ "" ∧ path_exists b = true
       ∧ config_run_reply b = Ret 0)
  ∧ (InLoop (EvSubprocessRun (DockerSetup.config_command config))
       ∈ snd (DockerSetup.validate_setup config b s)
     ↔ project_name config ≠ "" ∧ path_exists b = true)
  ∧ (EvPathExists (compose_file config) ∈ snd (DockerSetup.validate_setup config b s)
     ↔ project_name config ≠ "")
  ∧ connection_attempts (snd (DockerSetup.validate_setup config b s)) = []
  ∧ (∀ e, fst (fst (DockerSetup.validate_setup config b s)) = Raise e →
          e = KeyboardInterrupt).
Proof.
  destruct (validate_setup_cases config b s)
    as (r & t & -> & Htrue & Hraise & Hrun & Hpath & Hconn).
  cbn [fst snd]. repeat split; try tauto; try assumption.
  intros e He. apply (Hraise e He).
Qed.

(** Releasing the Redis session during start-up. *)
Lemma lift_disconnect_cases (close_reply : option exn) (s : State) :
  redis_client s = true →
  ∃ r s' t,
    lift (RedisClient.disconnect close_reply) s = (r, s', t)
    ∧ redis_client s' = false
    ∧ docker_client s' = docker_client s
    ∧ frame s s'
    ∧ InLoop EvClose ∈ t
    ∧ (∀ e, r = Raise e → e = KeyboardInterrupt)
    ∧ connection_attempts t = [].
Proof.
  intros Hc. unfold lift, RedisClient.disconnect. rewrite run_bind. cbn [get].
  rewrite Hc.
  destruct close_reply as [e |];
    [destruct (is_Exception e) eqn:He; [| apply not_Exception in He; subst e] |];
    brun; rewrite ?He; brun; do 3 eexists; (split; [reflexivity |]);
    boot_finish.
Qed.

(** [RedisClient.connect] run during start-up. *)
Lemma lift_connect_cases (w : World) (s : State) :
  ∃ r s' t,
    lift (RedisClient.connect w) s = (r, s', t)
    ∧ (r = Ret true ↔ connect_reply w = None)
    ∧ redis_client s' = true
    ∧ docker_client s' = docker_client s
    ∧ frame s s'
    ∧ (∀ e, r = Raise e → e = KeyboardInterrupt)
    ∧ (∀ ev, ev ∈ t → ev = InLoop EvConnect ∨ ∃ lvl msg, ev = InLoop (EvLog lvl msg)).
Proof.
  unfold lift, RedisClient.connect.
  destruct (connect_reply w) as [e |];
    [destruct (is_ConnectionError e) eqn:Hce;
     [| destruct (is_Exception e) eqn:He; [| apply not_Exception in He; subst e]] |];
    brun; rewrite ?Hce, ?He; brun; do 3 eexists; (split; [reflexivity |]);
    boot_finish;
    match goal with
    | H : _ ∈ _ |- _ =>
        repeat (apply elem_of_cons in H as [H | H]; [subst; eauto |]);
        apply elem_of_nil in H; destruct H
    end.
Qed.

(** [_connect_services] in full. *)
Lemma connect_services_cases (w : World) (b : Boot) (s : State) :
  ∃ r s' t,
    Startup._connect_services w b s = (r, s', t)
    ∧ (r = Ret true ↔ services_ok w b)
    ∧ (r = Ret true → redis_client s' = true ∧ docker_client s' = true)
    ∧ (connect_reply w ≠ None →
       docker_client s' = docker_client s ∧ EvDockerFromEnv ∉ t)
    ∧ (r = Ret false → connect_reply w = None →
       redis_client s' = false ∧ InLoop EvClose ∈ t)
    ∧ (∀ e, r = Raise e → e = KeyboardInterrupt)
    ∧ frame s s'.
Proof.
  unfold Startup._connect_services, services_ok. rewrite brun_bind.
  destruct (lift_connect_cases w s)
    as (r1 & s1 & t1 & -> & Htrue1 & Hc1 & Hd1 & Hf1 & Hraise1 & Hev1).
  destruct r1 as [[] | e1]; cbn [negb].
  - assert (connect_reply w = None) as Hw by tauto.
    rewrite brun_bind.
    destruct (docker_connect_cases b s1)
      as (r2 & s2 & t2 & -> & Htrue2 & Hd2 & Hraise2 & Hf2 & Hc2 & _ & _ & _).
    destruct r2 as [[] | e2]; cbn [negb].
    + brun. do 3 eexists. split; [reflexivity |].
      assert (from_env_reply b = None ∧ docker_ping_reply b = None) by tauto.
      assert (frame s s2) by (eapply frame_trans; eassumption).
      boot_finish.
    + rewrite brun_bind.
      destruct (lift_disconnect_cases (boot_close_reply b) s2)
        as (r3 & s3 & t3 & -> & Hc3 & Hd3 & Hf3 & Hclose & Hraise3 & _);
        [congruence |].
      assert (frame s s3) by (eapply frame_trans; [| eassumption];
                              eapply frame_trans; eassumption).
      assert (¬ (from_env_reply b = None ∧ docker_ping_reply b = None))
        by (intros H'; apply Htrue2 in H'; discriminate).
      destruct r3 as [[] | e3]; brun; do 3 eexists; (split; [reflexivity |]);
        boot_finish.
      * rewrite !elem_of_app. auto.
      * apply (Hraise3 e). congruence.
    + do 3 eexists. split; [reflexivity |].
      assert (frame s s2) by (eapply frame_trans; eassumption).
      boot_finish.
  - assert (connect_reply w ≠ None) by (intros H'; apply Htrue1 in H'; discriminate).
    brun. do 3 eexists. split; [reflexivity |]. boot_finish.
    rewrite app_nil_r. intros Hin. apply Hev1 in Hin.
    destruct Hin as [? | (? & ? & ?)]; discriminate.
  - assert (connect_reply w ≠ None) by (intros H'; apply Htrue1 in H'; discriminate).
    do 3 eexists. split; [reflexivity |]. boot_finish.
    intros Hin. apply Hev1 in Hin.
    destruct Hin as [? | (? & ? & ?)]; discriminate.
Qed.

(** [_connect_services] returns [True] exactly when Redis answers and the
    Docker daemon is found and answers; both handles are then in place.
    When Redis does not answer, Docker is not contacted at all. When Redis
    answers and Docker fails, the Redis session is closed and its handle
    released before [False] is returned. No [Exception] escapes. *)
Theorem connect_services_outcome (w : World) (b : Boot) (s : State) :
  (fst (fst (Startup._connect_services w b s)) = Ret true
   ↔ connect_reply w = None ∧ from_env_reply b = None ∧ docker_ping_reply b = None)
  ∧ (fst (fst (Startup._connect_services w b s)) = Ret true →
     redis_client (snd (fst (Startup._connect_services w b s))) = true
     ∧ docker_client (snd (fst (Startup._connect_services w b s))) = true)
  ∧ (connect_reply w ≠ None →
     docker_client (snd (fst (Startup._connect_services w b s))) = docker_client s
     ∧ EvDockerFromEnv ∉ snd (Startup._connect_services w b s))
  ∧ (fst (fst (Startup._connect_services w b s)) = Ret false →
     connect_reply w = None →
     redis_client (snd (fst (Startup._connect_services w b s))) = false
     ∧ InLoop EvClose ∈ snd (Startup._connect_services w b s))
  ∧ (∀ e, fst (fst (Startup._connect_services w b s)) = Raise e →
          e = KeyboardInterrupt).
Proof.
  destruct (connect_services_cases w b s)
    as (r & s' & t & -> & Htrue & Hboth & Hredis & Hdocker & Hraise & _).
  cbn [fst snd]. unfold services_ok in Htrue.
  split; [exact Htrue |]. split; [exact Hboth |]. split; [exact Hredis |].
  split; [exact Hdocker | exact Hraise].
Qed.

Lemma connection_attempts_app (t1 t2 : list boot_event) :
  connection_attempts (t1 ++ t2) = connection_attempts t1 ++ connection_attempts t2.
Proof. apply filter_app. Qed.

Lemma connection_attempts_skip (ev : boot_event) (t : list boot_event) :
  ev ∉ [InLoop EvConnect; InLoop EvPing; EvDockerFromEnv; EvDockerPing] →
  connection_attempts (ev :: t) = connection_attempts t.
Proof.
  intros H. unfold connection_attempts. rewrite filter_cons.
  destruct (decide _); [contradiction | reflexivity].
Qed.

(** [_validate_setup] in full. *)
Lemma validate_setup_wrapper_cases (config : Config.t) (b : Boot) (s : State) :
  ∃ r t,
    Startup._validate_setup config b s = (r, s, t)
    ∧ (r = Ret true ↔ setup_ok config b)
    ∧ (∀ e, r = Raise e → e = KeyboardInterrupt ∧ config_run_reply b = Raise e)
    ∧ connection_attempts t = [].
Proof.
  unfold Startup._validate_setup, setup_ok.
  destruct (validate_setup_cases (docker config) b s)
    as (r & t & -> & Htrue & Hraise & _ & _ & Hconn).
  destruct r as [[] | e].
  - do 2 eexists. split; [reflexivity |].
    rewrite connection_attempts_app, Hconn. boot_finish.
  - do 2 eexists. split; [reflexivity |]. boot_finish.
  - destruct (Hraise e eq_refl) as [-> He]. cbn [is_Exception].
    do 2 eexists. split; [reflexivity |]. boot_finish.
Qed.

(** The part of [start] before the loop, in full. *)
Lemma prepare_cases (config : Config.t) (w : World) (b : Boot) (s : State) :
  ∃ r s' t,
    Startup.prepare config w b s = (r, s', t)
    ∧ (r = Ret true ↔ setup_ok config b ∧ services_ok w b)
    ∧ (r = Ret true →
       running s' = true ∧ redis_client s' = true ∧ docker_client s' = true
       ∧ last_scale_time s' = last_scale_time s)
    ∧ (¬ setup_ok config b → config_run_reply b ≠ Raise KeyboardInterrupt →
       r = Ret false ∧ s' = s ∧ connection_attempts t = [])
    ∧ (r = Ret false → setup_ok config b → connect_reply w = None →
       redis_client s' = false)
    ∧ (∀ e, r = Raise e → e = KeyboardInterrupt).
Proof.
  unfold Startup.prepare.
  do 3 (rewrite brun_bind; cbn [blog bemit]). rewrite brun_bind.
  destruct (validate_setup_wrapper_cases config b s)
    as (r1 & t1 & -> & Htrue1 & Hraise1 & Hconn1).
  destruct r1 as [[] | e1]; cbn [negb].
  - assert (setup_ok config b) as Hok by tauto.
    rewrite brun_bind.
    destruct (connect_services_cases w b s)
      as (r2 & s2 & t2 & -> & Htrue2 & Hboth & _ & Hrel & Hraise2 & Hf).
    destruct r2 as [[] | e2]; cbn [negb]; brun; do 3 eexists;
      (split; [reflexivity |]).
    + assert (services_ok w b) by tauto.
      destruct (Hboth eq_refl). boot_finish.
    + assert (¬ services_ok w b) by (intros H'; apply Htrue2 in H'; discriminate).
      boot_finish; apply Hrel; auto.
    + boot_finish; apply (Hraise2 e); congruence.
  - assert (¬ setup_ok config b) by (intros H'; apply Htrue1 in H'; discriminate).
    brun. do 3 eexists. split; [reflexivity |].
    boot_finish.
    rewrite !connection_attempts_skip by (intros Hin; elems Hin).
    rewrite connection_attempts_app, Hconn1. reflexivity.
  - destruct (Hraise1 e1 eq_refl) as [-> Hki].
    do 3 eexists. split; [reflexivity |]. boot_finish.
Qed.

(** [start] enters the loop exactly when the preflight passes and both
    services answer; it then enters it with [running] set and both handles
    in place. In every other case it ends in [sys.exit(1)], or in an
    interrupt. When the preflight fails, it exits without any attempt to
    reach Redis or Docker and leaves the state as it was. *)
Theorem start_outcome (config : Config.t) (w : World) (b : Boot)
    (ws : list World) (close_reply : option exn) (s : State) :
  ((∃ o, fst (fst (Startup.start config w b ws close_reply s)) = Startup.LoopEnded o)
   ↔ setup_ok config b ∧ services_ok w b)
  ∧ (setup_ok config b ∧ services_ok w b →
     ∃ s1 t1,
       running s1 = true ∧ redis_client s1 = true ∧ docker_client s1 = true
       ∧ last_scale_time s1 = last_scale_time s
       ∧ Startup.start config w b ws close_reply s
         = match DynamicScaler._scaling_loop config ws close_reply s1 with
           | (o, s2, t2) => (Startup.LoopEnded o, s2, t1 ++ (InLoop <$> t2))
           end)
  ∧ (¬ (setup_ok config b ∧ services_ok w b) →
     fst (fst (Startup.start config w b ws close_reply s)) = Startup.Exited 1
     ∨ fst (fst (Startup.start config w b ws close_reply s))
       = Startup.Raised KeyboardInterrupt)
  ∧ (¬ setup_ok config b → config_run_reply b ≠ Raise KeyboardInterrupt →
     fst (fst (Startup.start config w b ws close_reply s)) = Startup.Exited 1
     ∧ snd (fst (Startup.start config w b ws close_reply s)) = s
     ∧ connection_attempts (snd (Startup.start config w b ws close_reply s)) = []).
Proof.
  unfold Startup.start.
  destruct (prepare_cases config w b s)
    as (r & s1 & t1 & -> & Htrue & Hin & Hpre & _ & Hraise).
  destruct r as [[] | e].
  - assert (setup_ok config b ∧ services_ok w b) as Hok by tauto.
    destruct (Hin eq_refl) as (? & ? & ? & ?).
    destruct (DynamicScaler._scaling_loop config ws close_reply s1)
      as [[o s2] t2] eqn:Hloop.
    cbn [fst snd]. split; [split; [intros _; exact Hok | eauto] |].
    split; [| split; [tauto | tauto]].
    intros _. exists s1, t1. rewrite Hloop. auto.
  - assert (¬ (setup_ok config b ∧ services_ok w b))
      by (intros H'; apply Htrue in H'; discriminate).
    cbn [fst snd]. split; [split; [intros [o Ho]; discriminate | tauto] |].
    split; [tauto |]. split; [auto |].
    intros Hno Hki. destruct (Hpre Hno Hki) as (_ & -> & ?). auto.
  - assert (¬ (setup_ok config b ∧ services_ok w b))
      by (intros H'; apply Htrue in H'; discriminate).
    rewrite (Hraise e eq_refl).
    cbn [fst snd]. split; [split; [intros [o Ho]; discriminate | tauto] |].
    split; [tauto |]. split; [auto |].
    intros Hno Hki. destruct (Hpre Hno Hki) as (? & _). discriminate.
Qed.

Lemma start_outcome_witness :
  fst (fst (Startup.start Sample.config (Sample.healthy 1000 Sample.six_waiting)
              no_compose_file [] None Startup.initial)) = Startup.Exited 1
  ∧ snd (fst (Startup.start Sample.config (Sample.healthy 1000 Sample.six_waiting)
                no_compose_file [] None Startup.initial)) = Startup.initial
  ∧ connection_attempts
      (snd (Startup.start Sample.config (Sample.healthy 1000 Sample.six_waiting)
              no_compose_file [] None Startup.initial)) = [].
Proof.
  apply (start_outcome Sample.config (Sample.healthy 1000 Sample.six_waiting)
           no_compose_file [] None Startup.initial).
  - intros (_ & H & _). discriminate H.
  - discriminate.
Defined.

(** A start with everything in place, followed by one pass that scales up
    and a signal: the service starts, scales to three workers, and stops
    with the Redis session released. *)
Example start_scale_stop :
  let x := Startup.start Sample.config (Sample.healthy 1000 Sample.six_waiting)
             ready
             [ {| time_now := 1000; ping_reply := None; connect_reply := None;
                  llen_reply := redis_llen Sample.six_waiting;
                  containers_reply := Ret ["running"; "running"];
                  run_reply := Ret {| stdout := []; stderr := [] |};
                  signal_received := true |} ]
             None Startup.initial in
  fst (fst x) = Startup.LoopEnded DynamicScaler.Stopped
  ∧ last_scale_time (snd (fst x)) = 1000
  ∧ redis_client (snd (fst x)) = false
  ∧ InLoop (EvSubprocessRun (DockerManager.command (docker Sample.config) 3))
    ∈ snd x.
Proof.
  cbv zeta. repeat split; try (vm_compute; reflexivity).
  apply list_elem_of_In. vm_compute. auto 40.
Qed.

(** ** The command line *)

(** [str] is one-to-one: the decimal text parses back to the integer. *)
Lemma str_injective (m n : Z) : str m = str n → m = n.
Proof.
  unfold str. intros H.
  assert (∀ z, NilZero.int_of_string (NilZero.string_of_int (Z.to_int z))
               = Some (Z.to_int z)) as Hparse.
  { intros z. apply NilZero.isi; destruct z; cbn; try discriminate;
      intros [= E]; exact (Unsigned.to_uint_nonnil _ E). }
  apply DecimalZ.to_int_inj.
  pose proof (Hparse m) as Hm. rewrite H, Hparse in Hm. congruence.
Qed.

(** The command handed to [docker compose] carries the target: it has
    fourteen arguments, the thirteenth is [service=target], the service
    name comes last, and two targets give the same command only when they
    are equal. *)
Theorem command_names_target (config : DockerConfig) (target target' : Z) :
  length (DockerManager.command config target) = 14%nat
  ∧ DockerManager.command config target !! 12%nat
    = Some (service_name config +:+ "=" +:+ str target)
  ∧ last (DockerManager.command config target) = Some (service_name config)
  ∧ (DockerManager.command config target = DockerManager.command config target'
     ↔ target = target').
Proof.
  split; [reflexivity |]. split; [reflexivity |]. split; [reflexivity |].
  split; [| intros ->; reflexivity].
  intros H. apply (f_equal (fun c => c !! 12%nat)) in H. cbn in H.
  injection H as H.
  apply (inj (String.app (service_name config))) in H.
  apply (inj (String.app "=")) in H.
  apply str_injective. exact H.
Qed.

Lemma budget_kept_witness :
  0 ≤ consecutive_errors
        (state_of (DynamicScaler.cycle Sample.config (Sample.redis_down 1000)
                     (Sample.started 0 2))) < 5.
Proof.
  apply (budget_kept Sample.config (Sample.redis_down 1000) (Sample.started 0 2));
    [vm_compute; split; discriminate || reflexivity | vm_compute; reflexivity].
Defined.
